(** * File Commander: resolution, dispatch, bulk move, search and best match

    A shallow embedding of [src/file-commander.py]: the class
    [FileOperations], the function [execute_operation] and the multi-step loop
    of [command].

    Conventions of the model.
    - Text is [string]; a character is an [ascii].  Case mapping and the
      character classes are those of Python on the ASCII range.
    - [os.name] is ['posix'], so [os.path] is [posixpath]; the branches the
      source guards with [os.name == 'nt'] are kept and evaluate to false.
    - Every call into the operating system is an [event] of a program tree
      [prog]; an exception is the constructor [Throw], carrying [str(e)].
    - [os.walk] is a generator: the entries it yields are given at once, and
      each entry a loop takes is one more call, the listing of its directory.
    - The handlers are given on text, as their signatures declare them, and
      again on the values of a plan, which [json.loads] leaves of any type;
      [execute_operation] calls the latter.
    - Rendering ([console.print], [track], the result table) is left out. *)

From Stdlib Require Import String Ascii List Arith Bool Lia.
From Stdlib Require Import Numbers.DecimalString.
Import ListNotations.
Open Scope list_scope.
Open Scope string_scope.

(** ** Python [str] methods *)

Module Str.

Definition backslash : ascii := "092"%char.
Definition newline : ascii := "010"%char.

(** [str.isspace] on one character: TAB..CR, FS..US and the space. *)
Definition isspace (c : ascii) : bool :=
  let n := nat_of_ascii c in
  ((9 <=? n)%nat && (n <=? 13)%nat) || ((28 <=? n)%nat && (n <=? 32)%nat).

Definition isupper (c : ascii) : bool :=
  let n := nat_of_ascii c in (65 <=? n)%nat && (n <=? 90)%nat.

Definition islower (c : ascii) : bool :=
  let n := nat_of_ascii c in (97 <=? n)%nat && (n <=? 122)%nat.

(** [c.isalpha()], also the class [[a-zA-Z]]. *)
Definition isalpha (c : ascii) : bool := isupper c || islower c.

Definition lower_char (c : ascii) : ascii :=
  if isupper c then ascii_of_nat (nat_of_ascii c + 32) else c.

Definition upper_char (c : ascii) : ascii :=
  if islower c then ascii_of_nat (nat_of_ascii c - 32) else c.

Fixpoint lower (s : string) : string :=
  match s with
  | EmptyString => EmptyString
  | String c r => String (lower_char c) (lower r)
  end.

Fixpoint lstrip (s : string) : string :=
  match s with
  | EmptyString => EmptyString
  | String c r => if isspace c then lstrip r else s
  end.

(** [rstrip] keeps a character when something other than white space
    follows it or when it is not white space itself. *)
Fixpoint rstrip (s : string) : string :=
  match s with
  | EmptyString => EmptyString
  | String c r =>
      match rstrip r with
      | EmptyString => if isspace c then EmptyString else String c EmptyString
      | r' => String c r'
      end
  end.

Definition strip (s : string) : string := rstrip (lstrip s).

Fixpoint startswith (s p : string) : bool :=
  match p with
  | EmptyString => true
  | String b p' =>
      match s with
      | EmptyString => false
      | String a s' => Ascii.eqb a b && startswith s' p'
      end
  end.

(** [needle in hay] *)
Fixpoint contains (needle hay : string) : bool :=
  startswith hay needle ||
  match hay with
  | EmptyString => false
  | String _ r => contains needle r
  end.

(** [s.endswith(suffix)] *)
Fixpoint endswith (s suffix : string) : bool :=
  String.eqb s suffix ||
  match s with
  | EmptyString => false
  | String _ r => endswith r suffix
  end.

(** [s.split()]: the maximal runs of characters that are not white space.
    [cur] is the run being read, in reverse. *)
Fixpoint rev_string (acc s : string) : string :=
  match s with
  | EmptyString => acc
  | String c r => rev_string (String c acc) r
  end.

Definition flush (cur : string) : list string :=
  match cur with
  | EmptyString => []
  | _ => [rev_string EmptyString cur]
  end.

Fixpoint split_from (cur s : string) : list string :=
  match s with
  | EmptyString => flush cur
  | String c r =>
      if isspace c then (flush cur ++ split_from EmptyString r)%list
      else split_from (String c cur) r
  end.

Definition split (s : string) : list string := split_from EmptyString s.

(** [s.split('/')] *)
Fixpoint split_on (sep : ascii) (cur s : string) : list string :=
  match s with
  | EmptyString => [rev_string EmptyString cur]
  | String c r =>
      if Ascii.eqb c sep then rev_string EmptyString cur :: split_on sep EmptyString r
      else split_on sep (String c cur) r
  end.

(** [sep.join(parts)] *)
Fixpoint join_with (sep : string) (parts : list string) : string :=
  match parts with
  | [] => EmptyString
  | [p] => p
  | p :: rest => p ++ sep ++ join_with sep rest
  end.

(** [str(n)] for a counter *)
Definition of_nat (n : nat) : string := NilZero.string_of_uint (Nat.to_uint n).

Definition is_empty (s : string) : bool :=
  match s with EmptyString => true | _ => false end.

End Str.

(** ** [posixpath]: the [os.path] of the modelled platform *)

Module posixpath.
Import Str.

Definition sep : ascii := "/"%char.

(** [isabs(s)]: [s.startswith('/')] *)
Definition isabs (s : string) : bool := startswith s "/".

(** [join(a, b)] for one extra component. *)
Definition join (a b : string) : string :=
  if startswith b "/" then b
  else if is_empty a || endswith a "/" then a ++ b
  else a ++ "/" ++ b.

(** The loop of [normpath] over the components; [new_comps] grows at its end. *)
Fixpoint normpath_loop (initial_slashes : nat) (comps new_comps : list string)
  : list string :=
  match comps with
  | [] => new_comps
  | comp :: rest =>
      if String.eqb comp "" || String.eqb comp "." then
        normpath_loop initial_slashes rest new_comps
      else if negb (String.eqb comp "..")
              || ((initial_slashes =? 0)%nat && (length new_comps =? 0)%nat)
              || (negb (length new_comps =? 0)%nat && String.eqb (last new_comps "") "..")
      then normpath_loop initial_slashes rest (new_comps ++ [comp])%list
      else if negb (length new_comps =? 0)%nat
      then normpath_loop initial_slashes rest (removelast new_comps)
      else normpath_loop initial_slashes rest new_comps
  end.

Fixpoint repeat_sep (n : nat) : string :=
  match n with O => "" | S k => String sep (repeat_sep k) end.

Definition normpath (path : string) : string :=
  if is_empty path then "." else
  let initial_slashes :=
    if startswith path "/" then
      if startswith path "//" && negb (startswith path "///") then 2 else 1
    else 0 in
  let comps := normpath_loop initial_slashes (split_on sep "" path) [] in
  let path := join_with "/" comps in
  let path := repeat_sep initial_slashes ++ path in
  if is_empty path then "." else path.

(** [basename(p)]: [p[p.rfind('/') + 1:]], the text after the last separator.
    [cur] is the text read since the last separator, in reverse. *)
Fixpoint basename_from (cur p : string) : string :=
  match p with
  | EmptyString => rev_string "" cur
  | String c r =>
      if Ascii.eqb c sep then basename_from "" r else basename_from (String c cur) r
  end.

Definition basename (p : string) : string := basename_from "" p.

End posixpath.

(** ** Calls into the operating system

    An [outcome] is what a call that may raise gives back; [Raised msg] carries
    [str(e)] of the exception. *)

Inductive outcome (A : Type) : Type :=
| Ok (a : A)
| Raised (msg : string).
Arguments Ok {A} a.
Arguments Raised {A} msg.

(** One step of [os.walk]: [(root, dirs, files)].

    [os.walk(top)] makes a generator and lists nothing.  The generator is
    given by the entries it yields when it is asked, in order ([EWalk]);
    each [next()] that yields an entry lists the directory of that entry, and
    that is the call [EScandir].  A loop takes an entry only through
    [generator_next], so the directories listed are those of the entries
    taken. *)
Definition walk_entry : Type := string * list string * list string.

Inductive event : Type :=
| EExists (p : string)                (* os.path.exists(p) *)
| EIsDir (p : string)                 (* os.path.isdir(p) *)
| EIsFile (p : string)                (* os.path.isfile(p) *)
| EListDir (p : string)               (* os.listdir(p) *)
| EWalk (top : string)                (* os.walk(top): the generator *)
| EScandir (root : string)            (* next() on it: root is listed *)
| EMakedirs (p : string)              (* os.makedirs(p) *)
| EOpenWrite (p content : string)     (* open(p, 'w'), then write(content) *)
| ERename (src dst : string)          (* os.rename(src, dst) *)
| EMove (src dst : string)            (* shutil.move(src, dst) *)
| EStartfile (p : string)             (* os.startfile(p) *)
| EPopenShell (cmd : string)          (* subprocess.Popen(cmd, shell=True) *)
| EPopen (argv : list string).        (* subprocess.Popen(argv) *)

Definition resp (e : event) : Type :=
  match e with
  | EExists _ | EIsDir _ | EIsFile _ => bool
  | EListDir _ => outcome (list string)
  | EWalk _ => list walk_entry
  | EScandir _ => unit
  | _ => outcome unit
  end.

(** A program: it returns, raises, or calls the system and goes on with the
    answer. *)
Inductive prog (A : Type) : Type :=
| Ret (a : A)
| Throw (msg : string)
| Vis (e : event) (k : resp e -> prog A).
Arguments Ret {A} a.
Arguments Throw {A} msg.
Arguments Vis {A} e k.

Fixpoint bind {A B : Type} (p : prog A) (f : A -> prog B) : prog B :=
  match p with
  | Ret a => f a
  | Throw m => Throw m
  | Vis e k => Vis e (fun r => bind (k r) f)
  end.

Notation "x <- c ;; k" := (bind c (fun x => k))
  (at level 61, c at next level, right associativity).

(** [try: body / except Exception as e: handler(str(e))] *)
Fixpoint try_except {A : Type} (body : prog A) (handler : string -> prog A) : prog A :=
  match body with
  | Ret a => Ret a
  | Throw m => handler m
  | Vis e k => Vis e (fun r => try_except (k r) handler)
  end.

Definition raise_of {A : Type} (r : outcome A) : prog A :=
  match r with Ok a => Ret a | Raised m => Throw m end.

Definition os_path_exists (p : string) : prog bool := Vis (EExists p) (fun b => Ret b).
Definition os_path_isdir (p : string) : prog bool := Vis (EIsDir p) (fun b => Ret b).
Definition os_path_isfile (p : string) : prog bool := Vis (EIsFile p) (fun b => Ret b).
Definition os_listdir (p : string) : prog (list string) := Vis (EListDir p) raise_of.
Definition os_walk (top : string) : prog (list walk_entry) := Vis (EWalk top) (fun l => Ret l).
Definition generator_next (root : string) : prog unit := Vis (EScandir root) (fun _ => Ret tt).
Definition os_makedirs (p : string) : prog unit := Vis (EMakedirs p) raise_of.
Definition open_write (p content : string) : prog unit := Vis (EOpenWrite p content) raise_of.
Definition os_rename (a b : string) : prog unit := Vis (ERename a b) raise_of.
Definition shutil_move (a b : string) : prog unit := Vis (EMove a b) raise_of.
Definition os_startfile (p : string) : prog unit := Vis (EStartfile p) raise_of.
Definition Popen_shell (cmd : string) : prog unit := Vis (EPopenShell cmd) raise_of.
Definition Popen (argv : list string) : prog unit := Vis (EPopen argv) raise_of.

(** The events a program issues are its [Vis] nodes: a program that is a
    [Ret] calls nothing. *)
Definition silent {A : Type} (p : prog A) : Prop := exists a, p = Ret a.

(** ** An operating system: a state and the answer to every call

    The queries read the state; the others may change it and may raise. *)
Record OS : Type := {
  World : Type;
  exists_ : World -> string -> bool;
  isdir_ : World -> string -> bool;
  isfile_ : World -> string -> bool;
  listdir_ : World -> string -> outcome (list string);
  walk_ : World -> string -> list walk_entry;
  makedirs_ : World -> string -> outcome unit * World;
  open_write_ : World -> string -> string -> outcome unit * World;
  rename_ : World -> string -> string -> outcome unit * World;
  move_ : World -> string -> string -> outcome unit * World;
  startfile_ : World -> string -> outcome unit * World;
  popen_shell_ : World -> string -> outcome unit * World;
  popen_ : World -> list string -> outcome unit * World
}.

Definition handle (os : OS) (e : event) (w : World os) : resp e * World os :=
  match e return resp e * World os with
  | EExists p => (exists_ os w p, w)
  | EIsDir p => (isdir_ os w p, w)
  | EIsFile p => (isfile_ os w p, w)
  | EListDir p => (listdir_ os w p, w)
  | EWalk top => (walk_ os w top, w)
  | EScandir _ => (tt, w)
  | EMakedirs p => makedirs_ os w p
  | EOpenWrite p c => open_write_ os w p c
  | ERename a b => rename_ os w a b
  | EMove a b => move_ os w a b
  | EStartfile p => startfile_ os w p
  | EPopenShell c => popen_shell_ os w c
  | EPopen argv => popen_ os w argv
  end.

Fixpoint run (os : OS) {A : Type} (p : prog A) (w : World os) : outcome A * World os :=
  match p with
  | Ret a => (Ok a, w)
  | Throw m => (Raised m, w)
  | Vis e k => let (r, w') := handle os e w in run os (k r) w'
  end.

(** ** Module-level values of [file-commander.py] *)

Definition os_name : string := "posix".

Definition dquote : ascii := "034"%char.

(** A [dict] with text keys, in insertion order. *)
Definition dict : Type := list (string * string).

Fixpoint dict_lookup (d : dict) (key : string) : option string :=
  match d with
  | [] => None
  | (k, v) :: rest => if String.eqb k key then Some v else dict_lookup rest key
  end.

Section Commander.
Import Str.

(** [os.path.expanduser("~")] *)
Variable HOME_DIR : string.

Definition DESKTOP_DIR := posixpath.join HOME_DIR "Desktop".
Definition DOWNLOADS_DIR := posixpath.join HOME_DIR "Downloads".
Definition DOCUMENTS_DIR := posixpath.join HOME_DIR "Documents".
Definition PICTURES_DIR := posixpath.join HOME_DIR "Pictures".
Definition MUSIC_DIR := posixpath.join HOME_DIR "Music".
Definition VIDEOS_DIR := posixpath.join HOME_DIR "Videos".
Definition MOVIES_DIR :=
  if String.eqb os_name "nt" then posixpath.join "D:" "Movies"
  else posixpath.join HOME_DIR "Movies".

(** The loop that adds the drive letters runs under [os.name == 'nt'] only. *)
Definition COMMON_LOCATIONS : dict :=
  [ ("home", HOME_DIR); ("desktop", DESKTOP_DIR); ("downloads", DOWNLOADS_DIR);
    ("documents", DOCUMENTS_DIR); ("pictures", PICTURES_DIR); ("music", MUSIC_DIR);
    ("videos", VIDEOS_DIR); ("movies", MOVIES_DIR);
    ("docs", DOCUMENTS_DIR); ("my documents", DOCUMENTS_DIR);
    ("my desktop", DESKTOP_DIR); ("my downloads", DOWNLOADS_DIR);
    ("pics", PICTURES_DIR); ("photos", PICTURES_DIR) ].

(** ** [class FileOperations] *)

Record FileOperations : Type := {
  current_path : string;
  video_extensions : list string
}.

(** [FileOperations.__init__] *)
Definition init : FileOperations := {|
  current_path := HOME_DIR;
  video_extensions :=
    [".mp4"; ".mkv"; ".avi"; ".mov"; ".wmv"; ".flv"; ".webm";
     ".m4v"; ".mpg"; ".mpeg"; ".3gp"; ".3g2"; ".m2ts"]
|}.

(** *** The pattern [^(?:drive\s+)?([a-zA-Z])[:\s]?$] under [re.match] *)

(** [$]: the end of the text, or just before a newline that ends it. *)
Definition at_end (s : string) : bool :=
  match s with
  | EmptyString => true
  | String c EmptyString => Ascii.eqb c newline
  | _ => false
  end.

(** [([a-zA-Z])[:\s]?$]: the optional character is tried first. *)
Definition match_letter (s : string) : option ascii :=
  match s with
  | EmptyString => None
  | String c r =>
      if isalpha c then
        let with_sep :=
          match r with
          | String x r' => (Ascii.eqb x ":" || isspace x) && at_end r'
          | EmptyString => false
          end in
        if with_sep || at_end r then Some c else None
      else None
  end.

Fixpoint drop (n : nat) (s : string) : string :=
  match n, s with
  | S k, String _ r => drop k r
  | _, _ => s
  end.

(** [drive\s+] takes every white space that follows the word, since a letter
    must come next.  The result is [group(1)]. *)
Definition drive_match (path : string) : option ascii :=
  let with_word :=
    if startswith path "drive" then
      match drop 5 path with
      | String x r => if isspace x then match_letter (lstrip r) else None
      | EmptyString => None
      end
    else None in
  match with_word with
  | Some c => Some c
  | None => match_letter path
  end.

(** [path[i]] *)
Definition char_at (s : string) (i : nat) : option ascii := String.get i s.

Definition char_is (o : option ascii) (f : ascii -> bool) : bool :=
  match o with Some c => f c | None => false end.

(** *** [resolve_path] *)

(** Lines 105-110: the drive-letter test and the final normalisation. *)
Definition resolve_tail (self : FileOperations) (path : string) : string :=
  if (1 <? String.length path)%nat && char_is (char_at path 0) isalpha
     && char_is (char_at path 1) (Ascii.eqb ":")
  then path
  else posixpath.normpath (posixpath.join (current_path self) path).

(** The f-string of line 101: the letter, a colon and one backslash. *)
Definition drive_root (letter : ascii) : string :=
  String letter (String ":" (String backslash "")).

Definition resolve_path (self : FileOperations) (path : string) : prog string :=
  if is_empty path then Ret (current_path self) else
  let path := strip path in
  if posixpath.isabs path then Ret path else
  match dict_lookup COMMON_LOCATIONS (lower path) with
  | Some location => Ret location
  | None =>
      match drive_match path with
      | Some g =>
          let drive_letter := lower_char g in
          let drive_path := drive_root (upper_char drive_letter) in
          found <- os_path_exists drive_path ;;
          if found then Ret drive_path else Ret (resolve_tail self path)
      | None => Ret (resolve_tail self path)
      end
  end.

(** [self.resolve_path(location) if location else self.current_path] *)
Definition resolve_or_current (self : FileOperations) (location : string) : prog string :=
  if negb (is_empty location) then resolve_path self location
  else Ret (current_path self).

(** *** [create_folder], [create_file], [rename_item] *)

Definition create_folder (self : FileOperations) (folder_name location : string)
  : prog string :=
  let folder_name := strip folder_name in
  base_path <- resolve_or_current self location ;;
  let folder_path := posixpath.join base_path folder_name in
  try_except
    (found <- os_path_exists folder_path ;;
     if found then Ret ("Folder already exists: " ++ folder_path)
     else _ <- os_makedirs folder_path ;; Ret ("Created folder: " ++ folder_path))
    (fun e => Ret ("Error creating folder: " ++ e)).

Definition create_file (self : FileOperations) (file_name location content : string)
  : prog string :=
  let file_name := strip file_name in
  base_path <- resolve_or_current self location ;;
  let file_path := posixpath.join base_path file_name in
  try_except
    (found <- os_path_exists file_path ;;
     if found then Ret ("File already exists: " ++ file_path)
     else _ <- open_write file_path content ;; Ret ("Created file: " ++ file_path))
    (fun e => Ret ("Error creating file: " ++ e)).

Definition rename_item (self : FileOperations) (old_name new_name location : string)
  : prog string :=
  base_path <- resolve_or_current self location ;;
  let old_path := posixpath.join base_path old_name in
  let new_path := posixpath.join base_path new_name in
  try_except
    (src_found <- os_path_exists old_path ;;
     if negb src_found then Ret ("Source does not exist: " ++ old_path) else
     dst_found <- os_path_exists new_path ;;
     if dst_found then Ret ("Destination already exists: " ++ new_path) else
     _ <- os_rename old_path new_path ;;
     Ret ("Renamed from " ++ old_path ++ " to " ++ new_path))
    (fun e => Ret ("Error renaming item: " ++ e)).

(** *** [move_item] *)

Definition move_item (self : FileOperations) (source destination : string) : prog string :=
  try_except
    (source_path <- resolve_path self source ;;
     dest_path <- resolve_path self destination ;;
     src_found <- os_path_exists source_path ;;
     if negb src_found then Ret ("Source does not exist: " ++ source_path) else
     into <- os_path_isdir dest_path ;;
     let dest_path :=
       if into then posixpath.join dest_path (posixpath.basename source_path)
       else dest_path in
     dst_found <- os_path_exists dest_path ;;
     if dst_found then Ret ("Destination already exists: " ++ dest_path) else
     _ <- shutil_move source_path dest_path ;;
     Ret ("Moved from " ++ source_path ++ " to " ++ dest_path))
    (fun e => Ret ("Error moving item: " ++ e)).

(** *** [move_all_files] *)

(** [[f for f in names if os.path.isfile(os.path.join(source_path, f))]] *)
Fixpoint files_to_move (source_path : string) (names : list string) : prog (list string) :=
  match names with
  | [] => Ret []
  | f :: rest =>
      keep <- os_path_isfile (posixpath.join source_path f) ;;
      more <- files_to_move source_path rest ;;
      Ret (if keep then f :: more else more)
  end.

(** The loop over [files_to_move]; the result is [(moved_files, skipped_files)]. *)
Fixpoint move_loop (source_path dest_path : string) (files : list string)
    (moved_files skipped_files : nat) : prog (nat * nat) :=
  match files with
  | [] => Ret (moved_files, skipped_files)
  | file :: rest =>
      let source_file := posixpath.join source_path file in
      let dest_file := posixpath.join dest_path file in
      found <- os_path_exists dest_file ;;
      if found then move_loop source_path dest_path rest moved_files (skipped_files + 1)
      else
        _ <- shutil_move source_file dest_file ;;
        move_loop source_path dest_path rest (moved_files + 1) skipped_files
  end.

Definition move_all_message (source_path dest_path : string) (moved_files skipped_files : nat)
  : string :=
  let result :=
    "Moved " ++ of_nat moved_files ++ " files from " ++ source_path ++ " to " ++ dest_path in
  if (0 <? skipped_files)%nat
  then result ++ String newline ("Skipped " ++ of_nat skipped_files
                                 ++ " files that already exist in the destination.")
  else result.

Definition move_all_files (self : FileOperations) (source_dir destination_dir : string)
  : prog string :=
  try_except
    (source_path <- resolve_path self source_dir ;;
     dest_path <- resolve_path self destination_dir ;;
     src_found <- os_path_exists source_path ;;
     if negb src_found then Ret ("Source directory does not exist: " ++ source_path) else
     src_dir <- os_path_isdir source_path ;;
     if negb src_dir then Ret ("Source is not a directory: " ++ source_path) else
     dst_found <- os_path_exists dest_path ;;
     if negb dst_found then Ret ("Destination directory does not exist: " ++ dest_path) else
     dst_dir <- os_path_isdir dest_path ;;
     if negb dst_dir then Ret ("Destination is not a directory: " ++ dest_path) else
     names <- os_listdir source_path ;;
     files <- files_to_move source_path names ;;
     match files with
     | [] => Ret ("No files found in the source directory: " ++ source_path)
     | _ =>
         counts <- move_loop source_path dest_path files 0 0 ;;
         Ret (move_all_message source_path dest_path (fst counts) (snd counts))
     end)
    (fun e => Ret ("Error moving files: " ++ e)).

(** *** [open_file_explorer] *)

(** The launcher branches shared by [open_file_explorer] and [play_movie]
    under [os.name == 'posix']. *)
Definition posix_open (target : string) : prog unit :=
  mac <- os_path_exists "/usr/bin/open" ;;
  if mac then Popen ["open"; target] else Popen ["xdg-open"; target].

Definition open_file_explorer (self : FileOperations) (location : string) : prog string :=
  try_except
    (path_to_open <- resolve_or_current self location ;;
     found <- os_path_exists path_to_open ;;
     if negb found then Ret ("Location does not exist: " ++ path_to_open) else
     _ <- (if String.eqb os_name "nt"
           then Popen_shell ("explorer " ++ String dquote (path_to_open ++ String dquote ""))
           else if String.eqb os_name "posix" then posix_open path_to_open
           else Ret tt) ;;
     Ret ("Opened file explorer at: " ++ path_to_open))
    (fun e => Ret ("Error opening file explorer: " ++ e)).

(** *** [search_files] *)

Definition max_files : nat := 10.

(** [for file in files:] with its [break]. *)
Fixpoint search_in_dir (search_term root : string) (files found_files : list string)
  : list string :=
  match files with
  | [] => found_files
  | file :: rest =>
      if contains (lower search_term) (lower file) then
        let found_files := (found_files ++ [posixpath.join root file])%list in
        if (max_files <=? length found_files)%nat then found_files
        else search_in_dir search_term root rest found_files
      else search_in_dir search_term root rest found_files
  end.

(** [for root, _, files in os.walk(base_path):] with its [break], as a
    function of the entries: the list the loop ends with. *)
Fixpoint search_walk (search_term : string) (entries : list walk_entry)
    (found_files : list string) : list string :=
  match entries with
  | [] => found_files
  | (root, _, files) :: rest =>
      if (max_files <=? length found_files)%nat then found_files
      else search_walk search_term rest (search_in_dir search_term root files found_files)
  end.

(** The same loop as it runs: each entry is taken from the generator by a
    [next()], and the test of line 302 comes after it. *)
Fixpoint search_loop (search_term : string) (entries : list walk_entry)
    (found_files : list string) : prog (list string) :=
  match entries with
  | [] => Ret found_files
  | (root, _, files) :: rest =>
      _ <- generator_next root ;;
      if (max_files <=? length found_files)%nat then Ret found_files
      else search_loop search_term rest (search_in_dir search_term root files found_files)
  end.

Definition search_files (self : FileOperations) (search_term search_path : string)
  : prog string :=
  if is_empty search_term then Ret "No search term specified." else
  try_except
    (base_path <- resolve_or_current self search_path ;;
     found <- os_path_exists base_path ;;
     if negb found then Ret ("Search location does not exist: " ++ base_path) else
     entries <- os_walk base_path ;;
     found_files <- search_loop search_term entries [] ;;
     match found_files with
     | [] => Ret ("No files found containing '" ++ search_term ++ "' in " ++ base_path)
     | _ => Ret ("Found " ++ of_nat (length found_files) ++ " files containing '"
                 ++ search_term ++ "'")
     end)
    (fun e => Ret ("Error searching files: " ++ e)).

(** *** [play_movie] *)

(** [for word in movie_words: if word in file_lower: score += 10] *)
Fixpoint word_scores (movie_words : list string) (file_lower : string) (score : nat) : nat :=
  match movie_words with
  | [] => score
  | word :: rest =>
      word_scores rest file_lower (if contains word file_lower then score + 10 else score)
  end.

(** Lines 350-362: the score of one file name. *)
Definition match_score (movie_name file : string) : nat :=
  let file_lower := lower file in
  let movie_lower := lower movie_name in
  let score := 0 in
  let score := if contains movie_lower file_lower then score + 50 else score in
  let movie_words := split movie_lower in
  word_scores movie_words file_lower score.

(** [any(file.lower().endswith(ext) for ext in self.video_extensions)] *)
Definition is_video (self : FileOperations) (file : string) : bool :=
  existsb (fun ext => endswith (lower file) ext) (video_extensions self).

(** [for file in files:] of the scan. *)
Fixpoint scan_dir (self : FileOperations) (movie_name root : string) (files : list string)
    (found_movies : list (string * nat)) : list (string * nat) :=
  match files with
  | [] => found_movies
  | file :: rest =>
      if is_video self file then
        let score := match_score movie_name file in
        if (0 <? score)%nat
        then scan_dir self movie_name root rest
               (found_movies ++ [(posixpath.join root file, score)])%list
        else scan_dir self movie_name root rest found_movies
      else scan_dir self movie_name root rest found_movies
  end.

(** [for root, _, files in os.walk(movies_dir):], as a function of the
    entries: the list the loop ends with. *)
Fixpoint scan_walk (self : FileOperations) (movie_name : string) (entries : list walk_entry)
    (found_movies : list (string * nat)) : list (string * nat) :=
  match entries with
  | [] => found_movies
  | (root, _, files) :: rest =>
      scan_walk self movie_name rest (scan_dir self movie_name root files found_movies)
  end.

(** The same loop as it runs: one [next()] for each entry. *)
Fixpoint scan_loop (self : FileOperations) (movie_name : string) (entries : list walk_entry)
    (found_movies : list (string * nat)) : prog (list (string * nat)) :=
  match entries with
  | [] => Ret found_movies
  | (root, _, files) :: rest =>
      _ <- generator_next root ;;
      scan_loop self movie_name rest (scan_dir self movie_name root files found_movies)
  end.

(** [list.sort(key=lambda x: x[1], reverse=True)]: the sort is stable, and
    with [reverse=True] entries of equal key keep their original order.
    An entry is put before the first entry whose key is not greater. *)
Fixpoint insert_desc (x : string * nat) (l : list (string * nat)) : list (string * nat) :=
  match l with
  | [] => [x]
  | y :: rest => if (snd x <? snd y)%nat then y :: insert_desc x rest else x :: l
  end.

Fixpoint sort_desc (l : list (string * nat)) : list (string * nat) :=
  match l with
  | [] => []
  | x :: rest => insert_desc x (sort_desc rest)
  end.

Definition play_movie (self : FileOperations) (movie_name : string) : prog string :=
  if is_empty movie_name then Ret "No movie name specified." else
  try_except
    (match dict_lookup COMMON_LOCATIONS "movies" with
     | None => Throw "stat: path should be string, bytes, os.PathLike or integer, not NoneType"
     | Some movies_dir =>
         found <- os_path_exists movies_dir ;;
         if negb found then Ret ("Movies directory does not exist: " ++ movies_dir) else
         entries <- os_walk movies_dir ;;
         found_movies <- scan_loop self movie_name entries [] ;;
         match found_movies with
         | [] => Ret ("No movie found with name '" ++ movie_name ++ "'")
         | _ =>
             match sort_desc found_movies with
             | [] => Throw "list index out of range"
             | (best_match_path, _) :: _ =>
                 _ <- (if String.eqb os_name "nt" then os_startfile best_match_path
                       else if String.eqb os_name "posix" then posix_open best_match_path
                       else Ret tt) ;;
                 Ret ("Playing movie: " ++ posixpath.basename best_match_path)
             end
         end
     end)
    (fun e => Ret ("Error playing movie: " ++ e)).

(** ** The values of a plan

    A plan is what [json.loads] returns (line 479): a parameter can hold any
    JSON value.  A value that is not text is given by what the code can
    observe of it: the name of its type, which is in the text of the
    exceptions, its truth value, and [str()] of it.  So [5] is
    [Other "int" true "5"], [None] is [Other "NoneType" false "None"] and
    [[]] is [Other "list" false "[]"].  Text is always [Text]: the type
    name of an [Other] is one of NoneType, bool, int, float, list, dict. *)

Inductive value : Type :=
| Text (s : string)
| Other (type_name : string) (truth : bool) (shown : string).

(** [if v] *)
Definition truthy (v : value) : bool :=
  match v with
  | Text s => negb (is_empty s)
  | Other _ truth _ => truth
  end.

(** [str(v)], as an f-string shows [v]. *)
Definition py_str (v : value) : string :=
  match v with
  | Text s => s
  | Other _ _ shown => shown
  end.

(** The text of the [AttributeError] for a method of text on another value. *)
Definition no_attribute (type_name attribute : string) : string :=
  "'" ++ type_name ++ "' object has no attribute '" ++ attribute ++ "'".

(** [v.strip()] *)
Definition strip_of (v : value) : prog string :=
  match v with
  | Text s => Ret (strip s)
  | Other type_name _ _ => Throw (no_attribute type_name "strip")
  end.

(** [os.path.join(base, v)] *)
Definition join_of (base : string) (v : value) : prog string :=
  match v with
  | Text s => Ret (posixpath.join base s)
  | Other type_name _ _ =>
      Throw ("join() argument must be str, bytes, or os.PathLike object, not '"
             ++ type_name ++ "'")
  end.

(** [resolve_path] on a value: the test of line 84 is on its truth, and
    line 87 calls its [strip]. *)
Definition resolve_path_any (self : FileOperations) (path : value) : prog string :=
  if negb (truthy path) then Ret (current_path self)
  else match path with
       | Text s => resolve_path self s
       | Other type_name _ _ => Throw (no_attribute type_name "strip")
       end.

(** [self.resolve_path(location) if location else self.current_path] *)
Definition resolve_or_current_any (self : FileOperations) (location : value)
  : prog string :=
  if truthy location then resolve_path_any self location
  else Ret (current_path self).

(** *** The handlers on the values of a plan

    Each handler is written again from its source lines, with the values
    where the source has them; on text it does what the handler above
    does. *)

(** [create_folder]: lines 114 and 117 come before the [try]. *)
Definition create_folder_any (self : FileOperations) (folder_name location : value)
  : prog string :=
  folder_name <- strip_of folder_name ;;
  base_path <- resolve_or_current_any self location ;;
  let folder_path := posixpath.join base_path folder_name in
  try_except
    (found <- os_path_exists folder_path ;;
     if found then Ret ("Folder already exists: " ++ folder_path)
     else _ <- os_makedirs folder_path ;; Ret ("Created folder: " ++ folder_path))
    (fun e => Ret ("Error creating folder: " ++ e)).

(** [with open(file_path, 'w') as f: if content: f.write(content)]: the file
    is opened first; writing a value that is not text raises [TypeError]. *)
Definition write_new_file (file_path : string) (content : value) : prog unit :=
  if truthy content then
    match content with
    | Text c => open_write file_path c
    | Other type_name _ _ =>
        _ <- open_write file_path "" ;;
        Throw ("write() argument must be str, not " ++ type_name)
    end
  else open_write file_path "".

(** [create_file]: lines 135 and 138 come before the [try]. *)
Definition create_file_any (self : FileOperations) (file_name location content : value)
  : prog string :=
  file_name <- strip_of file_name ;;
  base_path <- resolve_or_current_any self location ;;
  let file_path := posixpath.join base_path file_name in
  try_except
    (found <- os_path_exists file_path ;;
     if found then Ret ("File already exists: " ++ file_path)
     else _ <- write_new_file file_path content ;; Ret ("Created file: " ++ file_path))
    (fun e => Ret ("Error creating file: " ++ e)).

(** [rename_item]: lines 160, 163 and 164 come before the [try]. *)
Definition rename_item_any (self : FileOperations) (old_name new_name location : value)
  : prog string :=
  base_path <- resolve_or_current_any self location ;;
  old_path <- join_of base_path old_name ;;
  new_path <- join_of base_path new_name ;;
  try_except
    (src_found <- os_path_exists old_path ;;
     if negb src_found then Ret ("Source does not exist: " ++ old_path) else
     dst_found <- os_path_exists new_path ;;
     if dst_found then Ret ("Destination already exists: " ++ new_path) else
     _ <- os_rename old_path new_path ;;
     Ret ("Renamed from " ++ old_path ++ " to " ++ new_path))
    (fun e => Ret ("Error renaming item: " ++ e)).

(** [move_item]: the paths are resolved inside the [try]. *)
Definition move_item_any (self : FileOperations) (source destination : value)
  : prog string :=
  try_except
    (source_path <- resolve_path_any self source ;;
     dest_path <- resolve_path_any self destination ;;
     src_found <- os_path_exists source_path ;;
     if negb src_found then Ret ("Source does not exist: " ++ source_path) else
     into <- os_path_isdir dest_path ;;
     let dest_path :=
       if into then posixpath.join dest_path (posixpath.basename source_path)
       else dest_path in
     dst_found <- os_path_exists dest_path ;;
     if dst_found then Ret ("Destination already exists: " ++ dest_path) else
     _ <- shutil_move source_path dest_path ;;
     Ret ("Moved from " ++ source_path ++ " to " ++ dest_path))
    (fun e => Ret ("Error moving item: " ++ e)).

(** [move_all_files]: the paths are resolved inside the [try]. *)
Definition move_all_files_any (self : FileOperations) (source_dir destination_dir : value)
  : prog string :=
  try_except
    (source_path <- resolve_path_any self source_dir ;;
     dest_path <- resolve_path_any self destination_dir ;;
     src_found <- os_path_exists source_path ;;
     if negb src_found then Ret ("Source directory does not exist: " ++ source_path) else
     src_dir <- os_path_isdir source_path ;;
     if negb src_dir then Ret ("Source is not a directory: " ++ source_path) else
     dst_found <- os_path_exists dest_path ;;
     if negb dst_found then Ret ("Destination directory does not exist: " ++ dest_path) else
     dst_dir <- os_path_isdir dest_path ;;
     if negb dst_dir then Ret ("Destination is not a directory: " ++ dest_path) else
     names <- os_listdir source_path ;;
     files <- files_to_move source_path names ;;
     match files with
     | [] => Ret ("No files found in the source directory: " ++ source_path)
     | _ =>
         counts <- move_loop source_path dest_path files 0 0 ;;
         Ret (move_all_message source_path dest_path (fst counts) (snd counts))
     end)
    (fun e => Ret ("Error moving files: " ++ e)).

(** [open_file_explorer]: the path is resolved inside the [try]. *)
Definition open_file_explorer_any (self : FileOperations) (location : value)
  : prog string :=
  try_except
    (path_to_open <- resolve_or_current_any self location ;;
     found <- os_path_exists path_to_open ;;
     if negb found then Ret ("Location does not exist: " ++ path_to_open) else
     _ <- (if String.eqb os_name "nt"
           then Popen_shell ("explorer " ++ String dquote (path_to_open ++ String dquote ""))
           else if String.eqb os_name "posix" then posix_open path_to_open
           else Ret tt) ;;
     Ret ("Opened file explorer at: " ++ path_to_open))
    (fun e => Ret ("Error opening file explorer: " ++ e)).

(** [search_term.lower()] is evaluated for each file (line 307). *)
Fixpoint search_in_dir_any (search_term : value) (root : string)
    (files found_files : list string) : prog (list string) :=
  match files with
  | [] => Ret found_files
  | file :: rest =>
      match search_term with
      | Other type_name _ _ => Throw (no_attribute type_name "lower")
      | Text term =>
          if contains (lower term) (lower file) then
            let found_files := (found_files ++ [posixpath.join root file])%list in
            if (max_files <=? length found_files)%nat then Ret found_files
            else search_in_dir_any search_term root rest found_files
          else search_in_dir_any search_term root rest found_files
      end
  end.

Fixpoint search_loop_any (search_term : value) (entries : list walk_entry)
    (found_files : list string) : prog (list string) :=
  match entries with
  | [] => Ret found_files
  | (root, _, files) :: rest =>
      _ <- generator_next root ;;
      if (max_files <=? length found_files)%nat then Ret found_files
      else
        found_files <- search_in_dir_any search_term root files found_files ;;
        search_loop_any search_term rest found_files
  end.

(** [search_files]: the test of line 286 is on the truth of the term. *)
Definition search_files_any (self : FileOperations) (search_term search_path : value)
  : prog string :=
  if negb (truthy search_term) then Ret "No search term specified." else
  try_except
    (base_path <- resolve_or_current_any self search_path ;;
     found <- os_path_exists base_path ;;
     if negb found then Ret ("Search location does not exist: " ++ base_path) else
     entries <- os_walk base_path ;;
     found_files <- search_loop_any search_term entries [] ;;
     match found_files with
     | [] => Ret ("No files found containing '" ++ py_str search_term ++ "' in "
                  ++ base_path)
     | _ => Ret ("Found " ++ of_nat (length found_files) ++ " files containing '"
                 ++ py_str search_term ++ "'")
     end)
    (fun e => Ret ("Error searching files: " ++ e)).

(** [movie_name.lower()] is evaluated for each video file (line 351). *)
Fixpoint scan_dir_any (self : FileOperations) (movie_name : value) (root : string)
    (files : list string) (found_movies : list (string * nat))
  : prog (list (string * nat)) :=
  match files with
  | [] => Ret found_movies
  | file :: rest =>
      if is_video self file then
        match movie_name with
        | Other type_name _ _ => Throw (no_attribute type_name "lower")
        | Text name =>
            let score := match_score name file in
            if (0 <? score)%nat
            then scan_dir_any self movie_name root rest
                   (found_movies ++ [(posixpath.join root file, score)])%list
            else scan_dir_any self movie_name root rest found_movies
        end
      else scan_dir_any self movie_name root rest found_movies
  end.

Fixpoint scan_loop_any (self : FileOperations) (movie_name : value)
    (entries : list walk_entry) (found_movies : list (string * nat))
  : prog (list (string * nat)) :=
  match entries with
  | [] => Ret found_movies
  | (root, _, files) :: rest =>
      _ <- generator_next root ;;
      found_movies <- scan_dir_any self movie_name root files found_movies ;;
      scan_loop_any self movie_name rest found_movies
  end.

(** [play_movie]: the test of line 335 is on the truth of the name. *)
Definition play_movie_any (self : FileOperations) (movie_name : value) : prog string :=
  if negb (truthy movie_name) then Ret "No movie name specified." else
  try_except
    (match dict_lookup COMMON_LOCATIONS "movies" with
     | None => Throw "stat: path should be string, bytes, os.PathLike or integer, not NoneType"
     | Some movies_dir =>
         found <- os_path_exists movies_dir ;;
         if negb found then Ret ("Movies directory does not exist: " ++ movies_dir) else
         entries <- os_walk movies_dir ;;
         found_movies <- scan_loop_any self movie_name entries [] ;;
         match found_movies with
         | [] => Ret ("No movie found with name '" ++ py_str movie_name ++ "'")
         | _ =>
             match sort_desc found_movies with
             | [] => Throw "list index out of range"
             | (best_match_path, _) :: _ =>
                 _ <- (if String.eqb os_name "nt" then os_startfile best_match_path
                       else if String.eqb os_name "posix" then posix_open best_match_path
                       else Ret tt) ;;
                 Ret ("Playing movie: " ++ posixpath.basename best_match_path)
             end
         end
     end)
    (fun e => Ret ("Error playing movie: " ++ e)).

(** ** [execute_operation] and the loop of [command] *)

(** [file_ops = FileOperations()] *)
Definition file_ops : FileOperations := init.

(** [operation == name], where [operation] is [None] when the key is missing
    or holds a value that is not text: every comparison is then false. *)
Definition op_is (operation : option string) (name : string) : bool :=
  match operation with Some s => String.eqb s name | None => false end.

Definition unknown_message : string :=
  "Sorry, I couldn't understand that command. Please try again.".

(** The [parameters] of an entry: a JSON object, or a value of another type,
    given by the name of its type. *)
Inductive params : Type :=
| Params (d : list (string * value))
| NotDict (type_name : string).

Fixpoint plan_lookup (d : list (string * value)) (key : string) : option value :=
  match d with
  | [] => None
  | (k, v) :: rest => if String.eqb k key then Some v else plan_lookup rest key
  end.

(** [parameters.get(key, "")] *)
Definition get (parameters : params) (key : string) : prog value :=
  match parameters with
  | Params d =>
      Ret (match plan_lookup d key with Some v => v | None => Text "" end)
  | NotDict type_name => Throw (no_attribute type_name "get")
  end.

Definition execute_operation (operation : option string) (parameters : params)
  : prog string :=
  if op_is operation "create_folder" then
    folder_name <- get parameters "folder_name" ;;
    location <- get parameters "location" ;;
    create_folder_any file_ops folder_name location
  else if op_is operation "create_file" then
    file_name <- get parameters "file_name" ;;
    location <- get parameters "location" ;;
    content <- get parameters "content" ;;
    create_file_any file_ops file_name location content
  else if op_is operation "rename_item" then
    old_name <- get parameters "old_name" ;;
    new_name <- get parameters "new_name" ;;
    location <- get parameters "location" ;;
    rename_item_any file_ops old_name new_name location
  else if op_is operation "move_item" then
    source <- get parameters "source" ;;
    destination <- get parameters "destination" ;;
    move_item_any file_ops source destination
  else if op_is operation "move_all_files" then
    source_dir <- get parameters "source_dir" ;;
    destination_dir <- get parameters "destination_dir" ;;
    move_all_files_any file_ops source_dir destination_dir
  else if op_is operation "open_file_explorer" then
    location <- get parameters "location" ;;
    open_file_explorer_any file_ops location
  else if op_is operation "search_files" then
    search_term <- get parameters "search_term" ;;
    search_path <- get parameters "search_path" ;;
    search_files_any file_ops search_term search_path
  else if op_is operation "play_movie" then
    movie_name <- get parameters "movie_name" ;;
    play_movie_any file_ops movie_name
  else Ret unknown_message.

(** One entry of [operations], a JSON object: [op_data.get("operation")] and
    [op_data.get("parameters", {})]. *)
Record op_data : Type := {
  operation : option string;
  parameters : params
}.

(** A parameter set whose values are all text. *)
Definition text_value (v : value) : Prop := exists s, v = Text s.

Definition text_params (p : params) : Prop :=
  exists d, p = Params d /\ Forall (fun kv => text_value (snd kv)) d.

(** Lines 533-540: [outputs = []], then one [append] per entry. *)
Fixpoint run_operations (operations : list op_data) (outputs : list string)
  : prog (list string) :=
  match operations with
  | [] => Ret outputs
  | op :: rest =>
      output <- execute_operation (operation op) (parameters op) ;;
      run_operations rest (outputs ++ [output])%list
  end.

(** Lines 543-544: [Step i: output], numbered from [i]. *)
Fixpoint display_steps (i : nat) (outputs : list string) : list string :=
  match outputs with
  | [] => []
  | output :: rest => ("Step " ++ of_nat i ++ ": " ++ output) :: display_steps (S i) rest
  end.

(** Lines 525-544: the lines printed for a plan with several operations. *)
Definition command_multiple (operations : list op_data) : prog (list string) :=
  match operations with
  | [] => Ret ["No valid operations found in the command."]
  | _ => outputs <- run_operations operations [] ;; Ret (display_steps 1 outputs)
  end.

End Commander.

(** ** A small file system, to run the programs on

    A world is a table of nodes (path, is it a directory) together with the
    argument lists handed to the launcher so far. *)

Module Toy.
Import Str.

Record world : Type := {
  nodes : list (string * bool);
  launched : list (list string)
}.

Definition node_is (kind : bool -> bool) (w : world) (p : string) : bool :=
  existsb (fun n => String.eqb (fst n) p && kind (snd n)) (nodes w).

Definition t_exists : world -> string -> bool := node_is (fun _ => true).
Definition t_isdir : world -> string -> bool := node_is (fun d => d).
Definition t_isfile : world -> string -> bool := node_is negb.

(** The name of [q] inside the directory [p], when [q] lies directly in it. *)
Definition child_of (p q : string) : option string :=
  if startswith q (p ++ "/") then
    let name := drop (String.length p + 1) q in
    if is_empty name || contains "/" name then None else Some name
  else None.

Fixpoint children (keep : bool -> bool) (p : string) (l : list (string * bool))
  : list string :=
  match l with
  | [] => []
  | (q, d) :: rest =>
      match child_of p q with
      | Some name => if keep d then name :: children keep p rest else children keep p rest
      | None => children keep p rest
      end
  end.

Definition t_listdir (w : world) (p : string) : outcome (list string) :=
  if t_isdir w p then Ok (children (fun _ => true) p (nodes w))
  else Raised ("[Errno 2] No such file or directory: '" ++ p ++ "'").

Fixpoint walk_from (fuel : nat) (w : world) (top : string) : list walk_entry :=
  match fuel with
  | O => []
  | S k =>
      if t_isdir w top then
        let dirs := children (fun d => d) top (nodes w) in
        let files := children negb top (nodes w) in
        (top, dirs, files)
          :: flat_map (fun d => walk_from k w (posixpath.join top d)) dirs
      else []
  end.

Definition t_walk (w : world) (top : string) : list walk_entry :=
  walk_from (S (length (nodes w))) w top.

Definition add_node (w : world) (p : string) (d : bool) : world :=
  {| nodes := (nodes w ++ [(p, d)])%list; launched := launched w |}.

Definition t_makedirs (w : world) (p : string) : outcome unit * world :=
  if t_exists w p then (Raised ("[Errno 17] File exists: '" ++ p ++ "'"), w)
  else (Ok tt, add_node w p true).

Definition t_open_write (w : world) (p content : string) : outcome unit * world :=
  if t_isdir w p then (Raised ("[Errno 21] Is a directory: '" ++ p ++ "'"), w)
  else if t_exists w p then (Ok tt, w)
  else (Ok tt, add_node w p false).

Definition rename_node (a b : string) (n : string * bool) : string * bool :=
  if String.eqb (fst n) a then (b, snd n) else n.

Definition t_move (w : world) (a b : string) : outcome unit * world :=
  if t_exists w a
  then (Ok tt, {| nodes := map (rename_node a b) (nodes w); launched := launched w |})
  else (Raised ("[Errno 2] No such file or directory: '" ++ a ++ "'"), w).

Definition t_popen (w : world) (argv : list string) : outcome unit * world :=
  (Ok tt, {| nodes := nodes w; launched := (launched w ++ [argv])%list |}).

Definition os : OS := {|
  World := world;
  exists_ := t_exists;
  isdir_ := t_isdir;
  isfile_ := t_isfile;
  listdir_ := t_listdir;
  walk_ := t_walk;
  makedirs_ := t_makedirs;
  open_write_ := t_open_write;
  rename_ := t_move;
  move_ := t_move;
  startfile_ := fun w p => t_popen w ["startfile"; p];
  popen_shell_ := fun w c => t_popen w [c];
  popen_ := t_popen
|}.

(** The home of the examples, with two directories [/home/u/s] and
    [/home/u/d], a movie folder and, in the second world, a node named as a
    volume root. *)
Definition home : string := "/home/u".

Definition w0 : world := {|
  nodes := [ ("/home/u", true); ("/home/u/s", true); ("/home/u/d", true);
             ("/home/u/s/a.txt", false); ("/home/u/s/b.txt", false);
             ("/home/u/d/b.txt", false); ("/home/u/s/sub", true);
             ("/home/u/Movies", true); ("/home/u/Movies/Other.mp4", false);
             ("/home/u/Movies/old", true);
             ("/home/u/Movies/old/Inception.2010.mkv", false);
             ("/home/u/Movies/old/inception.notes.txt", false);
             ("/home/u/Movies/The.Inception.avi", false) ];
  launched := []
|}.

Definition w_drive : world := add_node w0 (drive_root "C") true.

End Toy.

(** ** The wording of the specification, for comparison with the code *)

Section Wording.
Import Str.

(** The fuzzy score as the specification words it: 50 for the whole query,
    and 10 for each word occurrence of the query found in the file name. *)
Definition spec_score (query filename : string) : nat :=
  (if contains (lower query) (lower filename) then 50 else 0)
  + 10 * length (filter (fun word => contains word (lower filename)) (split (lower query))).

(** The candidates of a media tree in traversal order: the files with a
    known extension and a positive score. *)
Definition candidates (self : FileOperations) (query : string) (entries : list walk_entry)
  : list (string * nat) :=
  flat_map
    (fun e : walk_entry =>
       let '(root, _, files) := e in
       map (fun f => (posixpath.join root f, spec_score query f))
           (filter (fun f => is_video self f && (0 <? spec_score query f)%nat) files))
    entries.

(** The files of a tree whose name contains the term, in traversal order. *)
Definition name_matches (term : string) (entries : list walk_entry) : list string :=
  flat_map
    (fun e : walk_entry =>
       let '(root, _, files) := e in
       map (posixpath.join root)
           (filter (fun f => contains (lower term) (lower f)) files))
    entries.

(** The eight operation kinds. *)
Definition recognized_kinds : list string :=
  [ "create_folder"; "create_file"; "rename_item"; "move_item"; "move_all_files";
    "open_file_explorer"; "search_files"; "play_movie" ].

Definition recognized (operation : option string) : Prop :=
  exists kind, operation = Some kind /\ In kind recognized_kinds.

(** The moves a bulk move issues, run in turn from [w]: each returns normally
    and leaves the presence of the later names under [dest_path] as it was. *)
Fixpoint moves_behave (os : OS) (source_path dest_path : string) (files : list string)
    (w : World os) : Prop :=
  match files with
  | [] => True
  | file :: rest =>
      if exists_ os w (posixpath.join dest_path file)
      then moves_behave os source_path dest_path rest w
      else
        let r := move_ os w (posixpath.join source_path file)
                            (posixpath.join dest_path file) in
        fst r = Ok tt
        /\ (forall g, In g rest ->
              exists_ os (snd r) (posixpath.join dest_path g)
              = exists_ os w (posixpath.join dest_path g))
        /\ moves_behave os source_path dest_path rest (snd r)
  end.

(** The world after moving the given files, in order. *)
Definition after_moves (os : OS) (source_path dest_path : string) (files : list string)
    (w : World os) : World os :=
  fold_left
    (fun w file => snd (move_ os w (posixpath.join source_path file)
                                   (posixpath.join dest_path file)))
    files w.

(** The world in which step [i] of a plan starts: the one the earlier steps
    leave, whatever they returned. *)
Definition world_before (HOME_DIR : string) (os : OS) (operations : list op_data)
    (i : nat) (w : World os) : World os :=
  snd (run os (run_operations HOME_DIR (firstn i operations) []) w).

End Wording.

(** A program that cannot end in [Throw], whatever the system answers. *)
Inductive no_throw {A : Type} : prog A -> Prop :=
| no_throw_ret (a : A) : no_throw (Ret a)
| no_throw_vis (e : event) (k : resp e -> prog A) :
    (forall r, no_throw (k r)) -> no_throw (Vis e k).

(** A program that only asks questions: it leaves every world as it is. *)
Inductive read_only {A : Type} : prog A -> Prop :=
| read_only_ret (a : A) : read_only (Ret a)
| read_only_exists (p : string) (k : bool -> prog A) :
    (forall b, read_only (k b)) -> read_only (Vis (EExists p) k).

Create HintDb commander.
#[export] Hint Constructors no_throw read_only : commander.

(** ** A system on which some moves raise

    The small file system again, except that moving onto a name that ends in
    [.lock] is refused. *)

Module Faulty.

Definition t_move (w : Toy.world) (a b : string) : outcome unit * Toy.world :=
  if Str.endswith b ".lock"
  then (Raised ("[Errno 13] Permission denied: '" ++ b ++ "'"), w)
  else Toy.t_move w a b.

Definition os : OS := {|
  World := Toy.world;
  exists_ := Toy.t_exists;
  isdir_ := Toy.t_isdir;
  isfile_ := Toy.t_isfile;
  listdir_ := Toy.t_listdir;
  walk_ := Toy.t_walk;
  makedirs_ := Toy.t_makedirs;
  open_write_ := Toy.t_open_write;
  rename_ := t_move;
  move_ := t_move;
  startfile_ := fun w p => Toy.t_popen w ["startfile"; p];
  popen_shell_ := fun w c => Toy.t_popen w [c];
  popen_ := Toy.t_popen
|}.

Definition w1 : Toy.world := {|
  Toy.nodes := [ ("/home/u", true); ("/home/u/s", true); ("/home/u/d", true);
                 ("/home/u/s/a.txt", false); ("/home/u/s/b.txt", false);
                 ("/home/u/s/k.lock", false); ("/home/u/s/z.txt", false);
                 ("/home/u/d/b.txt", false) ];
  Toy.launched := []
|}.

End Faulty.

(** ** [CommandProcessor._clean_json_response]

    The pattern is three backquotes, an optional [json], white space, a lazy
    group, white space and three backquotes, under [re.search].  A match
    starts at the first fence and needs a second fence after it (after the
    word [json] when it follows the first fence); white space after the
    opening is taken greedily, and the lazy group stops where only white
    space separates it from the first closing fence. *)

Definition fence : string :=
  String "096"%char (String "096"%char (String "096"%char "")).

(** The text after the first occurrence of [needle]. *)
Fixpoint after_first (needle s : string) : option string :=
  if Str.startswith s needle then Some (drop (String.length needle) s)
  else match s with
       | EmptyString => None
       | String _ r => after_first needle r
       end.

(** The text before the first occurrence of [needle]. *)
Fixpoint before_first (needle s : string) : option string :=
  if Str.startswith s needle then Some EmptyString
  else match s with
       | EmptyString => None
       | String c r => option_map (String c) (before_first needle r)
       end.

(** [match.group(1)] of the search, when there is a match. *)
Definition fenced_group (content : string) : option string :=
  match after_first fence content with
  | None => None
  | Some rest =>
      let rest := if Str.startswith rest "json" then drop 4 rest else rest in
      match before_first fence (Str.lstrip rest) with
      | None => None
      | Some body => Some (Str.rstrip body)
      end
  end.

Definition _clean_json_response (content : string) : string :=
  if Str.contains fence content then
    match fenced_group content with
    | Some group1 => Str.strip group1
    | None => content
    end
  else content.

(** Texts without a backquote, and texts of white space only. *)
Fixpoint no_backquote (s : string) : bool :=
  match s with
  | EmptyString => true
  | String c r => negb (Ascii.eqb c "096"%char) && no_backquote r
  end.

Fixpoint all_space (s : string) : bool :=
  match s with
  | EmptyString => true
  | String c r => Str.isspace c && all_space r
  end.

(** The calls a run makes, in order. *)
Fixpoint trace (os : OS) {A : Type} (p : prog A) (w : World os) : list event :=
  match p with
  | Ret _ => []
  | Throw _ => []
  | Vis e k => let (r, w') := handle os e w in e :: trace os (k r) w'
  end.

(** The directories a run lists through the steps of a walk, in order. *)
Definition listed (os : OS) {A : Type} (p : prog A) (w : World os) : list string :=
  flat_map (fun e => match e with EScandir root => [root] | _ => [] end) (trace os p w).

Definition entry_root (e : walk_entry) : string := fst (fst e).

(** A tree with ten matching names at its top and two directories below. *)
Module Trees.

Definition w_many : Toy.world := {|
  Toy.nodes := [ ("/home/u", true); ("/home/u/many", true);
                 ("/home/u/many/a0", false); ("/home/u/many/a1", false);
                 ("/home/u/many/a2", false); ("/home/u/many/a3", false);
                 ("/home/u/many/a4", false); ("/home/u/many/a5", false);
                 ("/home/u/many/a6", false); ("/home/u/many/a7", false);
                 ("/home/u/many/a8", false); ("/home/u/many/a9", false);
                 ("/home/u/many/more", true); ("/home/u/many/more/a10", false);
                 ("/home/u/many/more/deep", true);
                 ("/home/u/many/more/deep/a11", false) ];
  Toy.launched := []
|}.

End Trees.

(** The calls that only read the state of the system. *)
Definition is_query (e : event) : bool :=
  match e with
  | EExists _ | EIsDir _ | EIsFile _ | EListDir _ | EWalk _ | EScandir _ => true
  | _ => false
  end.

(** A program whose calls are all queries. *)
Inductive queries_only {A : Type} : prog A -> Prop :=
| queries_only_ret (a : A) : queries_only (Ret a)
| queries_only_throw (m : string) : queries_only (Throw m)
| queries_only_vis (e : event) (k : resp e -> prog A) :
    is_query e = true -> (forall r, queries_only (k r)) -> queries_only (Vis e k).

(** * Properties *)

(** ** Text and paths on examples *)

Example str_methods :
  Str.lower "Inception.2010.MKV" = "inception.2010.mkv"
  /\ Str.strip "  my  docs  " = "my  docs"
  /\ Str.split " the  big the " = ["the"; "big"; "the"]
  /\ Str.contains "cep" "inception" = true
  /\ Str.contains "" "" = true
  /\ Str.contains "x" "inception" = false
  /\ Str.endswith "a.mkv" ".mkv" = true
  /\ Str.endswith "kv" ".mkv" = false
  /\ Str.of_nat 0 = "0"
  /\ Str.of_nat 12 = "12".
Proof. repeat split. Qed.

Example posixpath_functions :
  posixpath.join "/a" "b" = "/a/b"
  /\ posixpath.join "/a/" "b" = "/a/b"
  /\ posixpath.join "/a" "/b" = "/b"
  /\ posixpath.join "" "b" = "b"
  /\ posixpath.normpath "/home/u/a/../b/./c//d" = "/home/u/b/c/d"
  /\ posixpath.normpath "//a/b/../../../c" = "//c"
  /\ posixpath.normpath "a/../.." = ".."
  /\ posixpath.normpath "" = "."
  /\ posixpath.basename "/a/b/c.txt" = "c.txt"
  /\ posixpath.basename "/a/b/" = "".
Proof. repeat split. Qed.

Example drive_match_examples :
  drive_match "c" = Some "c"%char
  /\ drive_match "C:" = Some "C"%char
  /\ drive_match "drive  d" = Some "d"%char
  /\ drive_match "drive e:" = Some "e"%char
  /\ drive_match "drivec" = None
  /\ drive_match "Drive c" = None
  /\ drive_match "c:foo" = None.
Proof. repeat split. Qed.

Example resolve_path_examples :
  resolve_path Toy.home (file_ops Toy.home) "" = Ret "/home/u"
  /\ resolve_path Toy.home (file_ops Toy.home) "/etc/hosts" = Ret "/etc/hosts"
  /\ resolve_path Toy.home (file_ops Toy.home) " Desktop " = Ret "/home/u/Desktop"
  /\ resolve_path Toy.home (file_ops Toy.home) "desktop" = Ret "/home/u/Desktop"
  /\ resolve_path Toy.home (file_ops Toy.home) "a/../b" = Ret "/home/u/b".
Proof. repeat split. Qed.

(** ** Running programs *)

Lemma run_bind (os : OS) {A B : Type} (p : prog A) (f : A -> prog B) (w : World os) :
  run os (bind p f) w =
  match run os p w with
  | (Ok a, w') => run os (f a) w'
  | (Raised m, w') => (Raised m, w')
  end.
Proof.
  revert w. induction p as [a | m | e k IH]; intros w; simpl; try reflexivity.
  destruct (handle os e w) as [r w']. apply IH.
Qed.

Lemma run_try_except (os : OS) {A : Type} (p : prog A) (h : string -> prog A)
    (w : World os) :
  run os (try_except p h) w =
  match run os p w with
  | (Ok a, w') => (Ok a, w')
  | (Raised m, w') => run os (h m) w'
  end.
Proof.
  revert w. induction p as [a | m | e k IH]; intros w; simpl; try reflexivity.
  destruct (handle os e w) as [r w']. apply IH.
Qed.

Lemma no_throw_run (os : OS) {A : Type} (p : prog A) :
  no_throw p -> forall w, exists a w', run os p w = (Ok a, w').
Proof.
  induction 1 as [a | e k _ IH]; intros w; simpl.
  - eauto.
  - destruct (handle os e w) as [r w']. apply IH.
Qed.

Lemma read_only_run (os : OS) {A : Type} (p : prog A) :
  read_only p -> forall w, exists a, run os p w = (Ok a, w).
Proof.
  induction 1 as [a | q k _ IH]; intros w; simpl.
  - eauto.
  - apply IH.
Qed.

Lemma read_only_no_throw {A : Type} (p : prog A) : read_only p -> no_throw p.
Proof. induction 1; auto with commander. Qed.

Lemma no_throw_bind {A B : Type} (p : prog A) (f : A -> prog B) :
  no_throw p -> (forall a, no_throw (f a)) -> no_throw (bind p f).
Proof.
  intros Hp Hf. induction Hp as [a | e k _ IH]; simpl; auto with commander.
Qed.

Lemma no_throw_try_except {A : Type} (p : prog A) (h : string -> prog A) :
  (forall m, no_throw (h m)) -> no_throw (try_except p h).
Proof.
  intros Hh. induction p as [a | m | e k IH]; simpl; auto with commander.
Qed.

Lemma run_try_bind (os : OS) {A B : Type} (p : prog A) (k : A -> prog B)
    (h : string -> prog B) (w : World os) :
  run os (try_except (bind p k) h) w =
  match run os p w with
  | (Ok a, w') => run os (try_except (k a) h) w'
  | (Raised m, w') => run os (h m) w'
  end.
Proof.
  revert w. induction p as [a | m | e q IH]; intros w; simpl; try reflexivity.
  destruct (handle os e w) as [r w']. apply IH.
Qed.

Lemma run_exists (os : OS) (p : string) (w : World os) :
  run os (os_path_exists p) w = (Ok (exists_ os w p), w).
Proof. reflexivity. Qed.

Lemma run_isdir (os : OS) (p : string) (w : World os) :
  run os (os_path_isdir p) w = (Ok (isdir_ os w p), w).
Proof. reflexivity. Qed.

Lemma run_isfile (os : OS) (p : string) (w : World os) :
  run os (os_path_isfile p) w = (Ok (isfile_ os w p), w).
Proof. reflexivity. Qed.

Lemma run_walk (os : OS) (p : string) (w : World os) :
  run os (os_walk p) w = (Ok (walk_ os w p), w).
Proof. reflexivity. Qed.

Lemma run_listdir (os : OS) (p : string) (w : World os) :
  run os (os_listdir p) w = (listdir_ os w p, w).
Proof. simpl. now destruct (listdir_ os w p). Qed.

Lemma run_move (os : OS) (a b : string) (w : World os) :
  run os (shutil_move a b) w = move_ os w a b.
Proof. simpl. now destruct (move_ os w a b) as [[[] | m] w']. Qed.

Lemma run_generator_next (os : OS) (root : string) (w : World os) :
  run os (generator_next root) w = (Ok tt, w).
Proof. reflexivity. Qed.

Lemma run_search_loop (os : OS) (term : string) (entries : list walk_entry)
    (found : list string) (w : World os) :
  run os (search_loop term entries found) w = (Ok (search_walk term entries found), w).
Proof.
  revert found. induction entries as [| [[root dirs] files] rest IH]; intros found;
    [reflexivity |].
  cbn [search_loop search_walk]. rewrite run_bind, run_generator_next. cbv beta iota.
  destruct (max_files <=? length found)%nat; [reflexivity | apply IH].
Qed.

Lemma run_scan_loop (os : OS) (self : FileOperations) (name : string)
    (entries : list walk_entry) (found : list (string * nat)) (w : World os) :
  run os (scan_loop self name entries found) w
  = (Ok (scan_walk self name entries found), w).
Proof.
  revert found. induction entries as [| [[root dirs] files] rest IH]; intros found;
    [reflexivity |].
  cbn [scan_loop scan_walk]. rewrite run_bind, run_generator_next. cbv beta iota.
  apply IH.
Qed.

(** ** Text and paths *)

Lemma is_empty_true (s : string) : Str.is_empty s = true -> s = "".
Proof. destruct s; [reflexivity | discriminate]. Qed.

Lemma startswith_app (a b p : string) :
  Str.startswith a p = true -> Str.startswith (a ++ b) p = true.
Proof.
  revert a. induction p as [| c p IH]; intros a H; [now destruct (a ++ b) |].
  destruct a as [| x a]; [discriminate |]. simpl in *.
  apply andb_true_iff in H as [Hc Hp]. rewrite Hc. simpl. auto.
Qed.

Lemma isabs_join (a b : string) :
  posixpath.isabs a = true -> posixpath.isabs (posixpath.join a b) = true.
Proof.
  unfold posixpath.isabs, posixpath.join. intros Ha.
  destruct (Str.startswith b "/") eqn:Hb; [exact Hb |].
  destruct (Str.is_empty a || Str.endswith a "/"); now apply startswith_app.
Qed.

Lemma isabs_normpath (p : string) :
  posixpath.isabs p = true -> posixpath.isabs (posixpath.normpath p) = true.
Proof.
  unfold posixpath.isabs. intros Hp.
  destruct p as [| c p]; [discriminate |].
  unfold posixpath.normpath. cbv beta iota delta [Str.is_empty]. rewrite Hp.
  destruct (Str.startswith (String c p) "//" && negb (Str.startswith (String c p) "///"));
    match goal with |- context [Str.join_with ?s ?l] => generalize (Str.join_with s l) end;
    intros x; simpl; now destruct x.
Qed.

(** ** [resolve_path] *)

Lemma resolve_path_read_only (HOME_DIR : string) (self : FileOperations) (path : string) :
  read_only (resolve_path HOME_DIR self path).
Proof.
  unfold resolve_path.
  destruct (Str.is_empty path); auto with commander.
  destruct (posixpath.isabs (Str.strip path)); auto with commander.
  destruct (dict_lookup _ _); auto with commander.
  destruct (drive_match _); auto with commander.
  constructor. intros []; auto with commander.
Qed.

Lemma resolve_or_current_read_only (HOME_DIR : string) (self : FileOperations)
    (location : string) :
  read_only (resolve_or_current HOME_DIR self location).
Proof.
  unfold resolve_or_current. destruct (negb _); auto with commander.
  apply resolve_path_read_only.
Qed.

Lemma run_resolve_path (HOME_DIR : string) (self : FileOperations) (path : string)
    (os : OS) (w : World os) :
  run os (resolve_path HOME_DIR self path) w
  = (fst (run os (resolve_path HOME_DIR self path) w), w).
Proof.
  destruct (read_only_run os _ (resolve_path_read_only HOME_DIR self path) w) as [r Hr].
  now rewrite Hr.
Qed.

Lemma common_locations_absolute (HOME_DIR key location : string) :
  posixpath.isabs HOME_DIR = true ->
  dict_lookup (COMMON_LOCATIONS HOME_DIR) key = Some location ->
  posixpath.isabs location = true.
Proof.
  intros HH. unfold COMMON_LOCATIONS. simpl.
  repeat match goal with
  | |- (if ?c then _ else _) = _ -> _ =>
      destruct c; [intros E; injection E as <-; try exact HH; now apply isabs_join |]
  end.
  discriminate.
Qed.

(** X20.  With an absolute home and an absolute current path, the resolver
    gives an absolute path in every case but two: the root of a drive
    reference that exists, and a token with a colon in second place
    returned as it is. *)
Lemma resolve_path_absolute_unless_drive (HOME_DIR : string) (self : FileOperations)
    (path : string) (os : OS) (w : World os) (r : string) :
  posixpath.isabs HOME_DIR = true ->
  posixpath.isabs (current_path self) = true ->
  fst (run os (resolve_path HOME_DIR self path) w) = Ok r ->
  posixpath.isabs r = true
  \/ (exists g, drive_match (Str.strip path) = Some g
                /\ r = drive_root (Str.upper_char (Str.lower_char g)))
  \/ (r = Str.strip path /\ char_is (char_at r 1) (Ascii.eqb ":") = true).
Proof.
  intros HH Hc. unfold resolve_path.
  destruct (Str.is_empty path); [simpl; intros E; injection E as <-; auto |].
  destruct (posixpath.isabs (Str.strip path)) eqn:Habs;
    [simpl; intros E; injection E as <-; auto |].
  destruct (dict_lookup _ _) eqn:Hl;
    [simpl; intros E; injection E as <-; left;
     exact (common_locations_absolute HOME_DIR _ _ HH Hl) |].
  assert (Htail : forall r', resolve_tail self (Str.strip path) = r' ->
            posixpath.isabs r' = true
            \/ (r' = Str.strip path /\ char_is (char_at r' 1) (Ascii.eqb ":") = true)).
  { intros r' <-. unfold resolve_tail.
    destruct (_ && _ && _) eqn:Hd.
    - right. split; [reflexivity |]. now apply andb_true_iff in Hd as [_ Hd].
    - left. now apply isabs_normpath, isabs_join. }
  destruct (drive_match _) as [g |] eqn:Hm.
  - simpl. destruct (exists_ os w _); simpl; intros E; injection E as <-.
    + right; left. eauto.
    + destruct (Htail _ eq_refl) as [? | ?]; auto.
  - simpl. intros E; injection E as <-. destruct (Htail _ eq_refl) as [? | ?]; auto.
Qed.

(** C1, the failing input.  With the absolute current path [/home/u], the
    token [c:foo] is neither absolute nor an alias nor a drive reference; the
    test of line 106 (a letter, then a colon) returns it unchanged, and the
    result is a relative path, against the docstring of [resolve_path]. *)
Theorem resolve_path_drive_prefix_relative :
  posixpath.isabs (current_path (file_ops Toy.home)) = true
  /\ resolve_path Toy.home (file_ops Toy.home) "c:foo" = Ret "c:foo"
  /\ posixpath.isabs "c:foo" = false.
Proof. repeat split. Qed.

(** C2 as stated fails: the token [c:] resolves to [c:] in a world without a
    node named as the volume root of C, and to that root in a world that has
    one. *)
Lemma resolve_path_result_follows_filesystem :
  fst (run Toy.os (resolve_path Toy.home (file_ops Toy.home) "c:") Toy.w0) = Ok "c:"
  /\ fst (run Toy.os (resolve_path Toy.home (file_ops Toy.home) "c:") Toy.w_drive)
     = Ok (drive_root "C")
  /\ fst (run Toy.os (resolve_path Toy.home (file_ops Toy.home) "c:") Toy.w0)
     <> fst (run Toy.os (resolve_path Toy.home (file_ops Toy.home) "c:") Toy.w_drive).
Proof. repeat split. vm_compute. discriminate. Qed.

(** C2, amended.  The resolver asks the file system one question only, on
    the drive-reference branch: whether the volume root of the matched letter
    exists.  In two worlds that answer it alike the result is the same, the
    worlds are left as they were, and a token that does not match the drive
    pattern is resolved without any call. *)
Theorem resolve_path_reads_only_drive_root (HOME_DIR : string) (self : FileOperations)
    (path : string) (os : OS) (w1 w2 : World os) :
  (forall g, drive_match (Str.strip path) = Some g ->
     exists_ os w1 (drive_root (Str.upper_char (Str.lower_char g)))
     = exists_ os w2 (drive_root (Str.upper_char (Str.lower_char g)))) ->
  fst (run os (resolve_path HOME_DIR self path) w1)
  = fst (run os (resolve_path HOME_DIR self path) w2)
  /\ snd (run os (resolve_path HOME_DIR self path) w1) = w1
  /\ (drive_match (Str.strip path) = None -> silent (resolve_path HOME_DIR self path)).
Proof.
  intros Hroot. split; [| split].
  - unfold resolve_path.
    destruct (Str.is_empty path); [reflexivity |].
    destruct (posixpath.isabs _); [reflexivity |].
    destruct (dict_lookup _ _); [reflexivity |].
    destruct (drive_match _) as [g |]; [| reflexivity].
    simpl. rewrite (Hroot g eq_refl). now destruct (exists_ os w2 _).
  - now rewrite run_resolve_path.
  - intros Hnone. unfold silent, resolve_path. rewrite Hnone.
    destruct (Str.is_empty path); [eauto |].
    destruct (posixpath.isabs _); [eauto |].
    destruct (dict_lookup _ _); eauto.
Qed.

Lemma resolve_path_reads_only_drive_root_witness :
  fst (run Toy.os (resolve_path Toy.home (file_ops Toy.home) "c:") Toy.w_drive)
  = fst (run Toy.os (resolve_path Toy.home (file_ops Toy.home) "c:")
           (Toy.add_node Toy.w_drive "/home/u/new.txt" false))
  /\ snd (run Toy.os (resolve_path Toy.home (file_ops Toy.home) "c:") Toy.w_drive)
     = Toy.w_drive
  /\ (drive_match (Str.strip "c:") = None ->
      silent (resolve_path Toy.home (file_ops Toy.home) "c:")).
Proof.
  apply (resolve_path_reads_only_drive_root Toy.home (file_ops Toy.home) "c:" Toy.os).
  intros g Hg. vm_compute in Hg. injection Hg as <-. reflexivity.
Defined.

(** ** [execute_operation] *)

(** C9.  An operation kind outside the eight recognized ones, a missing kind
    included, gives the one fixed clarification message for every parameter
    set, without any call into the system and without raising. *)
Theorem execute_operation_unrecognized (HOME_DIR : string) (operation : option string)
    (parameters : params) :
  ~ recognized operation ->
  execute_operation HOME_DIR operation parameters = Ret unknown_message.
Proof.
  intros Hn. unfold execute_operation.
  repeat match goal with
  | |- (if op_is operation ?name then _ else _) = _ =>
      destruct (op_is operation name) eqn:?E;
      [ exfalso; apply Hn; destruct operation as [s |]; [| discriminate];
        apply String.eqb_eq in E; exists name; subst s; split; [reflexivity |];
        unfold recognized_kinds; simpl; tauto
      | clear E ]
  end.
  reflexivity.
Qed.

Lemma execute_operation_unrecognized_witness :
  execute_operation Toy.home (Some "delete_item") (Params [("target", Text "/home/u/s")])
  = Ret unknown_message
  /\ execute_operation Toy.home None (NotDict "list") = Ret unknown_message.
Proof.
  split; apply execute_operation_unrecognized; intros [kind [E Hin]];
    try discriminate; injection E as <-; simpl in Hin;
    repeat (destruct Hin as [Hin | Hin]; [discriminate |]); exact Hin.
Defined.

(** ** [play_movie] with an empty name *)

(** C10.  For the empty name [play_movie] is the bare result
    [No movie name specified.]: the program has no call in it, so the media
    tree is not walked and no launcher is started, and every world is left as
    it was. *)
Theorem play_movie_empty_name (HOME_DIR : string) (self : FileOperations) :
  play_movie HOME_DIR self "" = Ret "No movie name specified."
  /\ silent (play_movie HOME_DIR self "")
  /\ forall (os : OS) (w : World os),
       run os (play_movie HOME_DIR self "") w = (Ok "No movie name specified.", w).
Proof.
  split; [reflexivity | split; [now exists "No movie name specified." | reflexivity]].
Qed.

(** ** No handler raises *)

(** Closes [no_throw] goals over a handler body: a [try] whose handler
    returns, a resolution followed by the rest, or a call. *)
Ltac handler_no_throw :=
  repeat first
    [ apply no_throw_try_except; intros; constructor
    | apply no_throw_bind;
      [ apply read_only_no_throw, resolve_or_current_read_only | intros ]
    | constructor ].

Lemma create_folder_no_throw (HOME_DIR : string) (self : FileOperations) (n l : string) :
  no_throw (create_folder HOME_DIR self n l).
Proof. unfold create_folder. handler_no_throw. Qed.

Lemma create_file_no_throw (HOME_DIR : string) (self : FileOperations) (n l c : string) :
  no_throw (create_file HOME_DIR self n l c).
Proof. unfold create_file. handler_no_throw. Qed.

Lemma rename_item_no_throw (HOME_DIR : string) (self : FileOperations) (a b l : string) :
  no_throw (rename_item HOME_DIR self a b l).
Proof. unfold rename_item. handler_no_throw. Qed.

Lemma move_item_no_throw (HOME_DIR : string) (self : FileOperations) (a b : string) :
  no_throw (move_item HOME_DIR self a b).
Proof. unfold move_item. handler_no_throw. Qed.

Lemma move_all_files_no_throw (HOME_DIR : string) (self : FileOperations) (a b : string) :
  no_throw (move_all_files HOME_DIR self a b).
Proof. unfold move_all_files. handler_no_throw. Qed.

Lemma open_file_explorer_no_throw (HOME_DIR : string) (self : FileOperations) (l : string) :
  no_throw (open_file_explorer HOME_DIR self l).
Proof. unfold open_file_explorer. handler_no_throw. Qed.

Lemma search_files_no_throw (HOME_DIR : string) (self : FileOperations) (t l : string) :
  no_throw (search_files HOME_DIR self t l).
Proof. unfold search_files. destruct (Str.is_empty t); handler_no_throw. Qed.

Lemma play_movie_no_throw (HOME_DIR : string) (self : FileOperations) (n : string) :
  no_throw (play_movie HOME_DIR self n).
Proof. unfold play_movie. destruct (Str.is_empty n); handler_no_throw. Qed.

(** On text the handlers on values are the handlers above. *)

Lemma resolve_path_any_text (HOME_DIR : string) (self : FileOperations) (s : string) :
  resolve_path_any HOME_DIR self (Text s) = resolve_path HOME_DIR self s.
Proof. now destruct s. Qed.

Lemma resolve_or_current_any_text (HOME_DIR : string) (self : FileOperations)
    (s : string) :
  resolve_or_current_any HOME_DIR self (Text s) = resolve_or_current HOME_DIR self s.
Proof. now destruct s. Qed.

Lemma create_folder_any_text (HOME_DIR : string) (self : FileOperations) (n l : string) :
  create_folder_any HOME_DIR self (Text n) (Text l) = create_folder HOME_DIR self n l.
Proof.
  unfold create_folder_any, create_folder. cbn [strip_of bind].
  now rewrite resolve_or_current_any_text.
Qed.

Lemma create_file_any_text (HOME_DIR : string) (self : FileOperations) (n l c : string) :
  create_file_any HOME_DIR self (Text n) (Text l) (Text c) = create_file HOME_DIR self n l c.
Proof.
  unfold create_file_any, create_file. cbn [strip_of bind].
  rewrite resolve_or_current_any_text. now destruct c.
Qed.

Lemma rename_item_any_text (HOME_DIR : string) (self : FileOperations) (a b l : string) :
  rename_item_any HOME_DIR self (Text a) (Text b) (Text l) = rename_item HOME_DIR self a b l.
Proof.
  unfold rename_item_any, rename_item. cbn [join_of bind].
  now rewrite resolve_or_current_any_text.
Qed.

Lemma move_item_any_text (HOME_DIR : string) (self : FileOperations) (a b : string) :
  move_item_any HOME_DIR self (Text a) (Text b) = move_item HOME_DIR self a b.
Proof. unfold move_item_any, move_item. now rewrite !resolve_path_any_text. Qed.

Lemma move_all_files_any_text (HOME_DIR : string) (self : FileOperations) (a b : string) :
  move_all_files_any HOME_DIR self (Text a) (Text b) = move_all_files HOME_DIR self a b.
Proof. unfold move_all_files_any, move_all_files. now rewrite !resolve_path_any_text. Qed.

Lemma open_file_explorer_any_text (HOME_DIR : string) (self : FileOperations) (l : string) :
  open_file_explorer_any HOME_DIR self (Text l) = open_file_explorer HOME_DIR self l.
Proof.
  unfold open_file_explorer_any, open_file_explorer.
  now rewrite resolve_or_current_any_text.
Qed.

Lemma run_search_in_dir_any_text (os : OS) (term root : string) (files : list string) :
  forall (found : list string) (w : World os),
  run os (search_in_dir_any (Text term) root files found) w
  = (Ok (search_in_dir term root files found), w).
Proof.
  induction files as [| file rest IH]; intros found w; [reflexivity |].
  cbn [search_in_dir_any search_in_dir].
  destruct (Str.contains (Str.lower term) (Str.lower file)); [| apply IH].
  destruct (max_files <=? length (found ++ [posixpath.join root file]))%nat;
    [reflexivity | apply IH].
Qed.

Lemma run_search_loop_any_text (os : OS) (term : string) (entries : list walk_entry) :
  forall (found : list string) (w : World os),
  run os (search_loop_any (Text term) entries found) w
  = (Ok (search_walk term entries found), w).
Proof.
  induction entries as [| [[root dirs] files] rest IH]; intros found w; [reflexivity |].
  cbn [search_loop_any search_walk]. rewrite run_bind, run_generator_next. cbv beta iota.
  destruct (max_files <=? length found)%nat; [reflexivity |].
  rewrite run_bind, run_search_in_dir_any_text. apply IH.
Qed.

Lemma search_files_any_text (HOME_DIR : string) (self : FileOperations) (t l : string)
    (os : OS) (w : World os) :
  run os (search_files_any HOME_DIR self (Text t) (Text l)) w
  = run os (search_files HOME_DIR self t l) w.
Proof.
  unfold search_files_any, search_files. destruct t as [| c r]; [reflexivity |].
  cbv beta iota delta [truthy Str.is_empty negb py_str].
  rewrite resolve_or_current_any_text, !run_try_bind.
  destruct (run os (resolve_or_current HOME_DIR self l) w) as [[base | m] w1];
    [| reflexivity].
  rewrite !run_try_bind, !run_exists. destruct (exists_ os w1 base); [| reflexivity].
  cbv beta iota delta [negb]. rewrite !run_try_bind, !run_walk. cbv beta iota.
  now rewrite !run_try_bind, run_search_loop, run_search_loop_any_text.
Qed.

Lemma run_scan_dir_any_text (os : OS) (self : FileOperations) (name root : string)
    (files : list string) :
  forall (found : list (string * nat)) (w : World os),
  run os (scan_dir_any self (Text name) root files found) w
  = (Ok (scan_dir self name root files found), w).
Proof.
  induction files as [| file rest IH]; intros found w; [reflexivity |].
  cbn [scan_dir_any scan_dir]. destruct (is_video self file); [| apply IH].
  cbv zeta. destruct (0 <? match_score name file)%nat; apply IH.
Qed.

Lemma run_scan_loop_any_text (os : OS) (self : FileOperations) (name : string)
    (entries : list walk_entry) :
  forall (found : list (string * nat)) (w : World os),
  run os (scan_loop_any self (Text name) entries found) w
  = (Ok (scan_walk self name entries found), w).
Proof.
  induction entries as [| [[root dirs] files] rest IH]; intros found w; [reflexivity |].
  cbn [scan_loop_any scan_walk]. rewrite run_bind, run_generator_next. cbv beta iota.
  rewrite run_bind, run_scan_dir_any_text. apply IH.
Qed.

Lemma play_movie_any_text (HOME_DIR : string) (self : FileOperations) (n : string)
    (os : OS) (w : World os) :
  run os (play_movie_any HOME_DIR self (Text n)) w = run os (play_movie HOME_DIR self n) w.
Proof.
  unfold play_movie_any, play_movie. destruct n as [| c r]; [reflexivity |].
  cbv beta iota delta [truthy Str.is_empty negb py_str].
  destruct (dict_lookup (COMMON_LOCATIONS HOME_DIR) "movies") as [movies_dir |];
    [| reflexivity].
  rewrite !run_try_bind, !run_exists. destruct (exists_ os w movies_dir); [| reflexivity].
  cbv beta iota delta [negb]. rewrite !run_try_bind, !run_walk. cbv beta iota.
  now rewrite !run_try_bind, run_scan_loop, run_scan_loop_any_text.
Qed.

(** The handlers whose first lines are inside the [try] return a message for
    every value. *)

Lemma move_item_any_no_throw (HOME_DIR : string) (self : FileOperations) (a b : value) :
  no_throw (move_item_any HOME_DIR self a b).
Proof. unfold move_item_any. handler_no_throw. Qed.

Lemma move_all_files_any_no_throw (HOME_DIR : string) (self : FileOperations)
    (a b : value) :
  no_throw (move_all_files_any HOME_DIR self a b).
Proof. unfold move_all_files_any. handler_no_throw. Qed.

Lemma open_file_explorer_any_no_throw (HOME_DIR : string) (self : FileOperations)
    (l : value) :
  no_throw (open_file_explorer_any HOME_DIR self l).
Proof. unfold open_file_explorer_any. handler_no_throw. Qed.

Lemma search_files_any_no_throw (HOME_DIR : string) (self : FileOperations) (t l : value) :
  no_throw (search_files_any HOME_DIR self t l).
Proof. unfold search_files_any. destruct (negb (truthy t)); handler_no_throw. Qed.

Lemma play_movie_any_no_throw (HOME_DIR : string) (self : FileOperations) (n : value) :
  no_throw (play_movie_any HOME_DIR self n).
Proof. unfold play_movie_any. destruct (negb (truthy n)); handler_no_throw. Qed.

Lemma plan_get_text (d : list (string * value)) (key : string) :
  Forall (fun kv => text_value (snd kv)) d ->
  exists s, match plan_lookup d key with Some v => v | None => Text "" end = Text s.
Proof.
  induction 1 as [| [k v] rest Hv _ IH]; simpl; [now exists "" |].
  destruct (String.eqb k key); [exact Hv | exact IH].
Qed.

Lemma execute_operation_no_throw (HOME_DIR : string) (operation : option string)
    (parameters : params) :
  text_params parameters ->
  no_throw (execute_operation HOME_DIR operation parameters).
Proof.
  intros [d [-> Htext]]. unfold execute_operation.
  repeat match goal with
  | |- no_throw (if ?c then _ else _) => destruct c
  end;
  cbn [get bind];
  repeat match goal with
  | |- context [match plan_lookup d ?key with Some v => v | None => Text "" end] =>
      let s := fresh "s" in
      destruct (plan_get_text d key Htext) as [s ->]
  end;
  rewrite ?create_folder_any_text, ?create_file_any_text, ?rename_item_any_text;
  auto using create_folder_no_throw, create_file_no_throw, rename_item_no_throw,
    move_item_any_no_throw, move_all_files_any_no_throw, open_file_explorer_any_no_throw,
    search_files_any_no_throw, play_movie_any_no_throw with commander.
Qed.

(** ** The loop over a plan *)

Lemma run_operations_world (HOME_DIR : string) (os : OS) (operations : list op_data)
    (outputs outputs' : list string) (w : World os) :
  snd (run os (run_operations HOME_DIR operations outputs) w)
  = snd (run os (run_operations HOME_DIR operations outputs') w).
Proof.
  revert outputs outputs' w.
  induction operations as [| op rest IH]; intros outputs outputs' w; [reflexivity |].
  simpl. rewrite !run_bind.
  destruct (run os (execute_operation HOME_DIR (operation op) (parameters op)) w)
    as [[output | m] w1]; [apply IH | reflexivity].
Qed.

Lemma run_operations_steps (HOME_DIR : string) (os : OS) (operations : list op_data) :
  Forall (fun op => text_params (parameters op)) operations ->
  forall (acc : list string) (w : World os),
  exists outputs,
    run os (run_operations HOME_DIR operations acc) w
    = (Ok (acc ++ outputs)%list,
       snd (run os (run_operations HOME_DIR operations []) w))
    /\ length outputs = length operations
    /\ forall i op, nth_error operations i = Some op ->
         exists output,
           nth_error outputs i = Some output
           /\ fst (run os (execute_operation HOME_DIR (operation op) (parameters op))
                     (world_before HOME_DIR os operations i w)) = Ok output.
Proof.
  induction 1 as [| op rest Hop _ IH]; intros acc w.
  - exists []. simpl. rewrite app_nil_r. repeat split.
    intros [| i] op' H; discriminate.
  - destruct (no_throw_run os _
                (execute_operation_no_throw HOME_DIR (operation op) (parameters op) Hop) w)
      as [output [w1 Hrun]].
    destruct (IH (acc ++ [output])%list w1) as [outs [Hrest [Hlen Hnth]]].
    exists (output :: outs). split; [| split].
    + simpl. rewrite !run_bind, Hrun, Hrest, <- app_assoc. simpl. f_equal.
      apply run_operations_world.
    + simpl. now rewrite Hlen.
    + intros [| i] op' Hop'; simpl in Hop'.
      * injection Hop' as <-. exists output. split; [reflexivity |].
        unfold world_before. simpl. now rewrite Hrun.
      * destruct (Hnth i op' Hop') as [out [Hout Hexec]].
        exists out. split; [exact Hout |].
        unfold world_before in *. simpl. rewrite run_bind, Hrun.
        now rewrite (run_operations_world HOME_DIR os _ _ []).
Qed.

(** C3, the failing input.  In the plan below the first operation gives
    [create_folder] the number 5 as its name.  Line 114 calls [strip] on it
    before the [try] of the handler: the [AttributeError] leaves
    [execute_operation] and the loop, so the run ends with the exception, no
    output at all is kept, and the second operation is never executed (the
    world is unchanged).  Executed alone, the second operation creates its
    folder; and [move_item], which resolves its arguments inside its [try],
    turns the same number into a message. *)
Theorem run_operations_aborted_by_number :
  run Toy.os
    (run_operations Toy.home
       [ {| operation := Some "create_folder";
            parameters := Params [("folder_name", Other "int" true "5")] |};
         {| operation := Some "create_folder";
            parameters := Params [("folder_name", Text "new"); ("location", Text "home")] |} ]
       [])
    Toy.w0
  = (Raised "'int' object has no attribute 'strip'", Toy.w0)
  /\ fst (run Toy.os
            (execute_operation Toy.home (Some "create_folder")
               (Params [("folder_name", Text "new"); ("location", Text "home")]))
            Toy.w0)
     = Ok "Created folder: /home/u/new"
  /\ run Toy.os
       (execute_operation Toy.home (Some "move_item")
          (Params [("source", Other "int" true "5"); ("destination", Text "d")]))
       Toy.w0
     = (Ok "Error moving item: 'int' object has no attribute 'strip'", Toy.w0).
Proof. repeat split. Qed.

(** Values that are not text, handler by handler: before the [try] they end
    the run, inside it they become a message. *)
Example handlers_on_numbers :
  run Toy.os (rename_item_any Toy.home (file_ops Toy.home)
                (Other "int" true "5") (Text "x.txt") (Text "s")) Toy.w0
  = (Raised "join() argument must be str, bytes, or os.PathLike object, not 'int'", Toy.w0)
  /\ fst (run Toy.os (create_file_any Toy.home (file_ops Toy.home)
                        (Text "c.txt") (Text "s") (Other "int" true "5")) Toy.w0)
     = Ok "Error creating file: write() argument must be str, not int"
  /\ Toy.t_exists (snd (run Toy.os (create_file_any Toy.home (file_ops Toy.home)
                                     (Text "c.txt") (Text "s") (Other "int" true "5"))
                          Toy.w0)) "/home/u/s/c.txt" = true
  /\ run Toy.os (create_folder_any Toy.home (file_ops Toy.home)
                   (Text "new") (Other "NoneType" false "None")) Toy.w0
     = run Toy.os (create_folder Toy.home (file_ops Toy.home) "new" "") Toy.w0
  /\ fst (run Toy.os (search_files_any Toy.home (file_ops Toy.home)
                        (Other "int" true "5") (Text "movies")) Toy.w0)
     = Ok "Error searching files: 'int' object has no attribute 'lower'"
  /\ fst (run Toy.os (search_files_any Toy.home (file_ops Toy.home)
                        (Other "int" true "5") (Text "s/sub")) Toy.w0)
     = Ok "No files found containing '5' in /home/u/s/sub"
  /\ fst (run Toy.os (play_movie_any Toy.home (file_ops Toy.home)
                        (Other "list" false "[]")) Toy.w0)
     = Ok "No movie name specified."
  /\ run Toy.os (execute_operation Toy.home (Some "create_folder") (NotDict "list")) Toy.w0
     = (Raised "'list' object has no attribute 'get'", Toy.w0).
Proof. repeat split. Qed.

(** X21.  For a plan whose parameters are all text the loop returns normally
    with exactly one output per operation.  Output [i] is the result of
    executing operation [i] in the world the operations before it left,
    whatever those returned: no output is dropped, the order is the plan's,
    and no step is skipped after a failed one. *)
Theorem run_operations_one_output_per_step (HOME_DIR : string) (os : OS)
    (operations : list op_data) (w : World os) :
  Forall (fun op => text_params (parameters op)) operations ->
  exists outputs,
    fst (run os (run_operations HOME_DIR operations []) w) = Ok outputs
    /\ length outputs = length operations
    /\ forall i op, nth_error operations i = Some op ->
         exists output,
           nth_error outputs i = Some output
           /\ fst (run os (execute_operation HOME_DIR (operation op) (parameters op))
                     (world_before HOME_DIR os operations i w)) = Ok output.
Proof.
  intros Htext.
  destruct (run_operations_steps HOME_DIR os operations Htext [] w) as [outs [Hrun H]].
  exists outs. now rewrite Hrun.
Qed.

Lemma text_params_intro (d : list (string * string)) :
  text_params (Params (map (fun kv => (fst kv, Text (snd kv))) d)).
Proof.
  eexists. split; [reflexivity |]. apply Forall_map, Forall_forall.
  intros [k v] _. now exists v.
Qed.

Lemma run_operations_one_output_per_step_witness :
  exists outputs,
    fst (run Toy.os
           (run_operations Toy.home
              [ {| operation := Some "rename_item";
                   parameters :=
                     Params [("old_name", Text "nope.txt"); ("new_name", Text "x.txt")] |};
                {| operation := Some "create_folder";
                   parameters :=
                     Params [("folder_name", Text "new"); ("location", Text "home")] |} ]
              [])
           Toy.w0) = Ok outputs
    /\ length outputs = 2.
Proof.
  destruct (run_operations_one_output_per_step Toy.home Toy.os
              [ {| operation := Some "rename_item";
                   parameters :=
                     Params [("old_name", Text "nope.txt"); ("new_name", Text "x.txt")] |};
                {| operation := Some "create_folder";
                   parameters :=
                     Params [("folder_name", Text "new"); ("location", Text "home")] |} ]
              Toy.w0) as [outputs [Hrun [Hlen _]]].
  - repeat constructor.
    + exact (text_params_intro [("old_name", "nope.txt"); ("new_name", "x.txt")]).
    + exact (text_params_intro [("folder_name", "new"); ("location", "home")]).
  - exists outputs. split; [exact Hrun | exact Hlen].
Defined.

Lemma display_steps_length (i : nat) (outputs : list string) :
  length (display_steps i outputs) = length outputs.
Proof.
  revert i. induction outputs as [| o rest IH]; intros i; simpl; [reflexivity |].
  now rewrite IH.
Qed.

(** The lines printed for a plan of several operations with text parameters:
    one per operation. *)
Lemma command_multiple_lines (HOME_DIR : string) (os : OS) (op : op_data)
    (rest : list op_data) (w : World os) :
  Forall (fun op => text_params (parameters op)) (op :: rest) ->
  exists lines,
    fst (run os (command_multiple HOME_DIR (op :: rest)) w) = Ok lines
    /\ length lines = length (op :: rest).
Proof.
  intros Htext.
  destruct (run_operations_steps HOME_DIR os (op :: rest) Htext [] w)
    as [outs [Hrun [Hlen _]]].
  exists (display_steps 1 outs). unfold command_multiple.
  rewrite run_bind, Hrun. simpl fst. now rewrite display_steps_length.
Qed.

(** The two-step plan of the specification: the rename of a missing file
    fails, and the folder is created all the same. *)
Example run_operations_continues_after_failure :
  fst (run Toy.os
         (run_operations Toy.home
            [ {| operation := Some "rename_item";
                 parameters :=
                   Params [("old_name", Text "nope.txt"); ("new_name", Text "x.txt")] |};
              {| operation := Some "create_folder";
                 parameters :=
                   Params [("folder_name", Text "new"); ("location", Text "home")] |} ] [])
         Toy.w0)
  = Ok [ "Source does not exist: /home/u/nope.txt"; "Created folder: /home/u/new" ].
Proof. reflexivity. Qed.

(** ** The fuzzy score *)

Lemma word_scores_count (movie_words : list string) (file_lower : string) (score : nat) :
  word_scores movie_words file_lower score
  = score + 10 * length (filter (fun word => Str.contains word file_lower) movie_words).
Proof.
  revert score. induction movie_words as [| word rest IH]; intros score; simpl.
  - lia.
  - rewrite IH. destruct (Str.contains word file_lower); simpl; lia.
Qed.

Lemma match_score_spec (query filename : string) :
  match_score query filename = spec_score query filename.
Proof.
  unfold match_score, spec_score. rewrite word_scores_count.
  destruct (Str.contains _ _); reflexivity.
Qed.

Lemma scan_dir_spec (self : FileOperations) (query root : string) (files : list string) :
  forall found_movies,
  scan_dir self query root files found_movies
  = (found_movies
     ++ map (fun f => (posixpath.join root f, spec_score query f))
         (filter (fun f => is_video self f && (0 <? spec_score query f)%nat) files))%list.
Proof.
  induction files as [| file rest IH]; intros found; simpl.
  - now rewrite app_nil_r.
  - rewrite match_score_spec.
    destruct (is_video self file); simpl; [| apply IH].
    destruct (0 <? spec_score query file)%nat; simpl; rewrite IH; [| reflexivity].
    now rewrite <- app_assoc.
Qed.

Lemma scan_walk_spec (self : FileOperations) (query : string) (entries : list walk_entry) :
  forall found_movies,
  scan_walk self query entries found_movies
  = (found_movies ++ candidates self query entries)%list.
Proof.
  induction entries as [| [[root dirs] files] rest IH]; intros found; simpl.
  - now rewrite app_nil_r.
  - now rewrite IH, scan_dir_spec, <- app_assoc.
Qed.

Lemma isspace_lower_char (c : ascii) : Str.isspace (Str.lower_char c) = Str.isspace c.
Proof. destruct c as [[] [] [] [] [] [] [] []]; reflexivity. Qed.

Lemma rev_string_lower (acc s : string) :
  Str.rev_string (Str.lower acc) (Str.lower s) = Str.lower (Str.rev_string acc s).
Proof.
  revert acc. induction s as [| c s IH]; intros acc; simpl; [reflexivity |].
  apply (IH (String c acc)).
Qed.

Lemma split_from_lower (cur s : string) :
  Str.split_from (Str.lower cur) (Str.lower s) = map Str.lower (Str.split_from cur s).
Proof.
  assert (Hflush : forall cur, Str.flush (Str.lower cur) = map Str.lower (Str.flush cur)).
  { intros [| c r]; [reflexivity |]. cbn [Str.flush Str.lower map].
    f_equal. apply (rev_string_lower "" (String c r)). }
  revert cur. induction s as [| c s IH]; intros cur; simpl; [apply Hflush |].
  rewrite isspace_lower_char. destruct (Str.isspace c).
  - rewrite map_app, <- Hflush. f_equal. apply (IH "").
  - apply (IH (String c cur)).
Qed.

(** The words of the lower-cased query are the lower-cased words of the query. *)
Lemma split_lower (s : string) : Str.split (Str.lower s) = map Str.lower (Str.split s).
Proof. apply (split_from_lower "" s). Qed.

(** C5.  The score computed by lines 350-362 is the one the specification
    words: 50 when the lower-cased query occurs in the lower-cased file name,
    plus 10 for each word occurrence of the query that occurs in it, the two
    added independently.  The scan keeps, in traversal order, exactly the
    files with a known extension and a positive score, each with that
    score; no kept candidate has score 0. *)
Theorem match_score_additive (self : FileOperations) (query : string) :
  (forall filename, match_score query filename = spec_score query filename)
  /\ (forall entries, scan_walk self query entries [] = candidates self query entries)
  /\ (forall entries c, In c (scan_walk self query entries []) -> 0 < snd c).
Proof.
  split; [apply match_score_spec | split].
  - intros entries. apply (scan_walk_spec self query entries []).
  - intros entries c. rewrite (scan_walk_spec self query entries []). simpl.
    unfold candidates. rewrite in_flat_map.
    intros [[[root dirs] files] [_ Hin]]. apply in_map_iff in Hin as [f [<- Hf]].
    apply filter_In in Hf as [_ Hf]. apply andb_true_iff in Hf as [_ Hf].
    now apply Nat.ltb_lt in Hf.
Qed.

Lemma match_score_additive_witness :
  match_score "the big the" "The.Big.Sleep.mkv" = 0 + 10 * 3
  /\ (In ("/m/The.Big.Sleep.mkv", 30)
         (scan_walk (file_ops Toy.home) "big the the"
            [("/m", [], ["The.Big.Sleep.mkv"; "notes.txt"; "Heat.mkv"])] []) ->
      0 < 30).
Proof.
  destruct (match_score_additive (file_ops Toy.home) "the big the") as [Hscore _].
  destruct (match_score_additive (file_ops Toy.home) "big the the") as [_ [_ Hpos]].
  split.
  - rewrite Hscore. reflexivity.
  - intros Hin. exact (Hpos _ _ Hin).
Defined.

Example match_score_inception :
  match_score "inception" "Inception.2010.mkv" = 60
  /\ match_score "inception" "Other.mp4" = 0
  /\ match_score "the the x" "The.Thing.mkv" = 20.
Proof. repeat split. Qed.

(** ** The best match *)

Lemma sort_desc_head (l : list (string * nat)) :
  l <> [] ->
  exists best score rest before after,
    sort_desc l = (best, score) :: rest
    /\ l = (before ++ (best, score) :: after)%list
    /\ Forall (fun c => snd c < score) before
    /\ Forall (fun c => snd c <= score) after.
Proof.
  induction l as [| x l IH]; intros Hne; [contradiction |].
  destruct l as [| y l'].
  - destruct x as [p s]. exists p, s, [], [], []. simpl. auto.
  - destruct IH as [best [score [rest [before [after [Hs [Hl [Hb Ha]]]]]]]];
      [discriminate |].
    change (sort_desc (x :: y :: l')) with (insert_desc x (sort_desc (y :: l'))).
    rewrite Hs, Hl. simpl insert_desc.
    destruct (snd x <? score)%nat eqn:Hlt.
    + apply Nat.ltb_lt in Hlt.
      exists best, score, (insert_desc x rest), (x :: before), after.
      repeat split; auto.
    + apply Nat.ltb_ge in Hlt. destruct x as [p s]. simpl in Hlt.
      exists p, s, ((best, score) :: rest), [], (before ++ (best, score) :: after)%list.
      repeat split; auto.
      apply Forall_app. split.
      * eapply Forall_impl; [| exact Hb]. simpl. intros; lia.
      * constructor; [simpl; lia |].
        eapply Forall_impl; [| exact Ha]. simpl. intros; lia.
Qed.

Lemma movies_lookup (HOME_DIR : string) :
  dict_lookup (COMMON_LOCATIONS HOME_DIR) "movies" = Some (MOVIES_DIR HOME_DIR).
Proof. reflexivity. Qed.

(** C4.  When the scan of the media tree finds a candidate, the file handed
    to the launcher has the greatest score: every candidate met before it in
    the traversal scores strictly less and every candidate met after it
    scores at most as much, so among equal maxima the first one met wins. *)
Theorem play_movie_first_maximum (HOME_DIR : string) (self : FileOperations)
    (movie_name : string) (os : OS) (w : World os) :
  movie_name <> "" ->
  exists_ os w (MOVIES_DIR HOME_DIR) = true ->
  scan_walk self movie_name (walk_ os w (MOVIES_DIR HOME_DIR)) [] <> [] ->
  exists best score before after,
    scan_walk self movie_name (walk_ os w (MOVIES_DIR HOME_DIR)) []
    = (before ++ (best, score) :: after)%list
    /\ Forall (fun c => snd c < score) before
    /\ Forall (fun c => snd c <= score) after
    /\ run os (play_movie HOME_DIR self movie_name) w
       = run os (try_except
                   (_ <- posix_open best ;;
                    Ret ("Playing movie: " ++ posixpath.basename best))
                   (fun e => Ret ("Error playing movie: " ++ e))) w.
Proof.
  intros Hname Hdir Hfound.
  destruct (sort_desc_head _ Hfound)
    as [best [score [rest [before [after [Hs [Hl [Hb Ha]]]]]]]].
  exists best, score, before, after. repeat split; auto.
  unfold play_movie.
  destruct movie_name as [| c r]; [contradiction |].
  cbv beta iota delta [Str.is_empty]. rewrite movies_lookup.
  rewrite run_try_bind, run_exists, Hdir. cbv beta iota delta [negb].
  rewrite run_try_bind, run_walk. cbv beta iota.
  rewrite run_try_bind, run_scan_loop. cbv beta iota. rewrite Hs.
  destruct (scan_walk self (String c r) (walk_ os w (MOVIES_DIR HOME_DIR)) []);
    [contradiction | reflexivity].
Qed.

Lemma play_movie_first_maximum_witness :
  exists best score before after,
    scan_walk (file_ops Toy.home) "inception"
      (walk_ Toy.os Toy.w0 (MOVIES_DIR Toy.home)) []
    = (before ++ (best, score) :: after)%list
    /\ Forall (fun c => snd c < score) before
    /\ Forall (fun c => snd c <= score) after
    /\ run Toy.os (play_movie Toy.home (file_ops Toy.home) "inception") Toy.w0
       = run Toy.os (try_except
                       (_ <- posix_open best ;;
                        Ret ("Playing movie: " ++ posixpath.basename best))
                       (fun e => Ret ("Error playing movie: " ++ e))) Toy.w0.
Proof.
  apply (play_movie_first_maximum Toy.home (file_ops Toy.home) "inception" Toy.os Toy.w0).
  - discriminate.
  - reflexivity.
  - vm_compute. discriminate.
Defined.

(** Two candidates score 60; the one met first in the traversal is played. *)
Example play_movie_tie :
  scan_walk (file_ops Toy.home) "inception" (Toy.t_walk Toy.w0 "/home/u/Movies") []
  = [ ("/home/u/Movies/The.Inception.avi", 60);
      ("/home/u/Movies/old/Inception.2010.mkv", 60) ]
  /\ fst (run Toy.os (play_movie Toy.home (file_ops Toy.home) "inception") Toy.w0)
     = Ok "Playing movie: The.Inception.avi"
  /\ Toy.launched (snd (run Toy.os (play_movie Toy.home (file_ops Toy.home) "inception")
                          Toy.w0))
     = [ ["xdg-open"; "/home/u/Movies/The.Inception.avi"] ].
Proof. repeat split. Qed.

(** ** Running a handler step by step *)

Lemma run_resolved (HOME_DIR : string) (self : FileOperations) (path : string)
    (os : OS) (w : World os) (r : string) :
  fst (run os (resolve_path HOME_DIR self path) w) = Ok r ->
  run os (resolve_path HOME_DIR self path) w = (Ok r, w).
Proof. intros H. now rewrite run_resolve_path, H. Qed.

(** ** [move_item] *)



(** ** [move_all_files] *)

Lemma run_files_to_move (os : OS) (source_path : string) (names : list string)
    (w : World os) :
  run os (files_to_move source_path names) w
  = (Ok (filter (fun f => isfile_ os w (posixpath.join source_path f)) names), w).
Proof.
  induction names as [| f rest IH]; [reflexivity |].
  cbn [files_to_move]. rewrite run_bind, run_isfile. cbv beta iota.
  rewrite run_bind, IH. simpl.
  now destruct (isfile_ os w (posixpath.join source_path f)).
Qed.

Lemma filter_split_length {A : Type} (f : A -> bool) (l : list A) :
  length (filter (fun x => negb (f x)) l) + length (filter f l) = length l.
Proof.
  induction l as [| x l IH]; [reflexivity |].
  simpl. destruct (f x); simpl; lia.
Qed.

Lemma run_move_loop (os : OS) (sp dp : string) (files : list string) :
  forall (w : World os) (moved skipped : nat),
  moves_behave os sp dp files w ->
  run os (move_loop sp dp files moved skipped) w
  = (Ok (moved + length (filter (fun f => negb (exists_ os w (posixpath.join dp f))) files),
         skipped + length (filter (fun f => exists_ os w (posixpath.join dp f)) files)),
     after_moves os sp dp
       (filter (fun f => negb (exists_ os w (posixpath.join dp f))) files) w).
Proof.
  induction files as [| file rest IH]; intros w moved skipped Hb.
  - simpl. now rewrite !Nat.add_0_r.
  - simpl in Hb. cbn [move_loop]. rewrite run_bind, run_exists. cbv beta iota.
    simpl filter.
    destruct (exists_ os w (posixpath.join dp file)) eqn:Hfound.
    + rewrite (IH w moved (skipped + 1) Hb). simpl. do 2 f_equal. f_equal. lia.
    + destruct Hb as [Hok [Hframe Hrest]].
      rewrite run_bind, run_move.
      destruct (move_ os w (posixpath.join sp file) (posixpath.join dp file))
        as [r w1] eqn:Hmove.
      simpl in Hok, Hframe, Hrest. subst r.
      rewrite (IH w1 (moved + 1) skipped Hrest).
      assert (Hsame : forall g, In g rest ->
                exists_ os w1 (posixpath.join dp g) = exists_ os w (posixpath.join dp g))
        by exact Hframe.
      rewrite (filter_ext_in _ (fun f => negb (exists_ os w (posixpath.join dp f))) rest),
              (filter_ext_in (fun f => exists_ os w1 (posixpath.join dp f))
                 (fun f => exists_ os w (posixpath.join dp f)) rest);
        [| exact Hsame | intros g Hg; now rewrite Hsame].
      simpl. unfold after_moves. simpl. rewrite Hmove. simpl.
      do 2 f_equal. f_equal. lia.
Qed.

(** C7.  With both directories in place, the files are the names of the
    source directory that are regular files.  None: the distinct
    [No files found] result, and nothing is called that changes the world.
    Otherwise, when the moves that are issued return normally and do not
    disturb the other names of the destination: the names absent from the
    destination are moved, in order, and are the only ones moved; the names
    present are skipped, with no call for them; the two counts add up to the
    number of files; and the line about skipped files is there exactly when
    the skip count is positive. *)
Theorem move_all_files_counts (HOME_DIR : string) (os : OS) (w : World os)
    (source_dir destination_dir sp dp : string) (names : list string) :
  fst (run os (resolve_path HOME_DIR (file_ops HOME_DIR) source_dir) w) = Ok sp ->
  fst (run os (resolve_path HOME_DIR (file_ops HOME_DIR) destination_dir) w) = Ok dp ->
  exists_ os w sp = true -> isdir_ os w sp = true ->
  exists_ os w dp = true -> isdir_ os w dp = true ->
  listdir_ os w sp = Ok names ->
  let files := filter (fun f => isfile_ os w (posixpath.join sp f)) names in
  let absent := filter (fun f => negb (exists_ os w (posixpath.join dp f))) files in
  let present := filter (fun f => exists_ os w (posixpath.join dp f)) files in
  moves_behave os sp dp files w ->
  length absent + length present = length files
  /\ (files = [] ->
      run os (move_all_files HOME_DIR (file_ops HOME_DIR) source_dir destination_dir) w
      = (Ok ("No files found in the source directory: " ++ sp), w))
  /\ (files <> [] ->
      run os (move_all_files HOME_DIR (file_ops HOME_DIR) source_dir destination_dir) w
      = (Ok (move_all_message sp dp (length absent) (length present)),
         after_moves os sp dp absent w))
  /\ (forall moved,
        move_all_message sp dp moved 0
        = "Moved " ++ Str.of_nat moved ++ " files from " ++ sp ++ " to " ++ dp)
  /\ (forall moved skipped, 0 < skipped ->
        move_all_message sp dp moved skipped
        = ("Moved " ++ Str.of_nat moved ++ " files from " ++ sp ++ " to " ++ dp)
          ++ String Str.newline
               ("Skipped " ++ Str.of_nat skipped
                ++ " files that already exist in the destination.")).
Proof.
  intros Hsp Hdp Hse Hsd Hde Hdd Hls files absent present Hb.
  apply run_resolved in Hsp. apply run_resolved in Hdp.
  assert (Hstart : forall out,
    run os (try_except
              (match files with
               | [] => Ret ("No files found in the source directory: " ++ sp)
               | _ =>
                   counts <- move_loop sp dp files 0 0 ;;
                   Ret (move_all_message sp dp (fst counts) (snd counts))
               end)
              (fun e => Ret ("Error moving files: " ++ e))) w = out ->
    run os (move_all_files HOME_DIR (file_ops HOME_DIR) source_dir destination_dir) w
    = out).
  { intros out <-. unfold move_all_files.
    rewrite run_try_bind, Hsp, run_try_bind, Hdp.
    rewrite run_try_bind, run_exists, Hse. cbv beta iota delta [negb].
    rewrite run_try_bind, run_isdir, Hsd. cbv beta iota delta [negb].
    rewrite run_try_bind, run_exists, Hde. cbv beta iota delta [negb].
    rewrite run_try_bind, run_isdir, Hdd. cbv beta iota delta [negb].
    rewrite run_try_bind, run_listdir, Hls.
    rewrite run_try_bind, run_files_to_move. reflexivity. }
  split; [apply filter_split_length | split; [| split; [| split]]].
  - intros Hnone. apply Hstart. now rewrite Hnone.
  - intros Hsome. apply Hstart.
    destruct files as [| f rest] eqn:Hfiles; [contradiction |].
    rewrite run_try_bind, (run_move_loop os sp dp (f :: rest) w 0 0 Hb). reflexivity.
  - reflexivity.
  - intros moved skipped Hpos. unfold move_all_message.
    destruct skipped; [lia | reflexivity].
Qed.

Lemma move_all_files_counts_witness :
  run Toy.os (move_all_files Toy.home (file_ops Toy.home) "s" "d") Toy.w0
  = (Ok (move_all_message "/home/u/s" "/home/u/d" 1 1),
     after_moves Toy.os "/home/u/s" "/home/u/d" ["a.txt"] Toy.w0)
  /\ Toy.t_exists (after_moves Toy.os "/home/u/s" "/home/u/d" ["a.txt"] Toy.w0)
       "/home/u/d/a.txt" = true
  /\ Toy.t_exists (after_moves Toy.os "/home/u/s" "/home/u/d" ["a.txt"] Toy.w0)
       "/home/u/s/b.txt" = true.
Proof.
  split; [| split; reflexivity].
  assert (Hb : moves_behave Toy.os "/home/u/s" "/home/u/d" ["a.txt"; "b.txt"] Toy.w0).
  { split; [reflexivity | split; [| exact I]].
    intros g [<- | []]. reflexivity. }
  apply (move_all_files_counts Toy.home Toy.os Toy.w0 "s" "d" "/home/u/s" "/home/u/d"
           ["a.txt"; "b.txt"; "sub"]); try reflexivity; try exact Hb.
  discriminate.
Defined.

(** ** [search_files] *)

Lemma firstn_firstn_app {A : Type} (n : nat) (a b : list A) :
  firstn n (firstn n a ++ b) = firstn n (a ++ b).
Proof.
  revert a. induction n as [| n IH]; intros a; [reflexivity |].
  destruct a as [| x a]; [reflexivity |]. simpl. now rewrite IH.
Qed.

Lemma in_firstn {A : Type} (n : nat) (l : list A) (x : A) : In x (firstn n l) -> In x l.
Proof.
  intros H. rewrite <- (firstn_skipn n l). apply in_or_app. now left.
Qed.

Lemma search_in_dir_spec (term root : string) (files : list string) :
  forall found,
  length found < max_files ->
  search_in_dir term root files found
  = firstn max_files
      (found ++ map (posixpath.join root)
                  (filter (fun f => Str.contains (Str.lower term) (Str.lower f)) files)).
Proof.
  induction files as [| file rest IH]; intros found Hlen; cbn [search_in_dir filter map].
  - rewrite app_nil_r, firstn_all2; [reflexivity | lia].
  - destruct (Str.contains (Str.lower term) (Str.lower file)); [| now apply IH].
    cbn [map].
    replace (found ++ posixpath.join root file :: map (posixpath.join root)
               (filter (fun f => Str.contains (Str.lower term) (Str.lower f)) rest))%list
      with ((found ++ [posixpath.join root file])
            ++ map (posixpath.join root)
                 (filter (fun f => Str.contains (Str.lower term) (Str.lower f)) rest))%list
      by now rewrite <- app_assoc.
    assert (Hl : length (found ++ [posixpath.join root file]) = S (length found))
      by (rewrite length_app; simpl; lia).
    destruct (max_files <=? length (found ++ [posixpath.join root file]))%nat eqn:Hfull.
    + apply Nat.leb_le in Hfull.
      rewrite firstn_app, firstn_all2 by lia.
      replace (max_files - length (found ++ [posixpath.join root file])) with 0 by lia.
      now rewrite app_nil_r.
    + apply Nat.leb_gt in Hfull. now apply IH.
Qed.

Lemma search_walk_spec (term : string) (entries : list walk_entry) :
  forall found,
  length found <= max_files ->
  search_walk term entries found
  = firstn max_files (found ++ name_matches term entries).
Proof.
  induction entries as [| [[root dirs] files] rest IH]; intros found Hlen.
  - cbn [search_walk name_matches flat_map].
    rewrite app_nil_r, firstn_all2; [reflexivity | lia].
  - cbn [search_walk].
    destruct (max_files <=? length found)%nat eqn:Hfull.
    + apply Nat.leb_le in Hfull.
      rewrite firstn_app, firstn_all2 by lia.
      replace (max_files - length found) with 0 by lia. now rewrite app_nil_r.
    + apply Nat.leb_gt in Hfull.
      rewrite search_in_dir_spec by exact Hfull.
      rewrite IH by apply firstn_le_length.
      rewrite firstn_firstn_app. simpl name_matches. now rewrite app_assoc.
Qed.

Lemma name_matches_app (term : string) (a b : list walk_entry) :
  name_matches term (a ++ b) = (name_matches term a ++ name_matches term b)%list.
Proof. unfold name_matches. apply flat_map_app. Qed.

Lemma run_resolve_or_current (HOME_DIR : string) (self : FileOperations)
    (location : string) (os : OS) (w : World os) (r : string) :
  fst (run os (resolve_or_current HOME_DIR self location) w) = Ok r ->
  run os (resolve_or_current HOME_DIR self location) w = (Ok r, w).
Proof.
  intros H.
  destruct (read_only_run os _ (resolve_or_current_read_only HOME_DIR self location) w)
    as [r' Hr].
  rewrite Hr in *. simpl in H. now injection H as ->.
Qed.

Lemma trace_bind (os : OS) {A B : Type} (p : prog A) (k : A -> prog B) (w : World os) :
  trace os (bind p k) w
  = (trace os p w
     ++ match run os p w with
        | (Ok a, w') => trace os (k a) w'
        | (Raised _, _) => []
        end)%list.
Proof.
  revert w. induction p as [a | m | e q IH]; intros w; simpl; try reflexivity.
  destruct (handle os e w) as [r w']. simpl. now rewrite IH.
Qed.

Lemma trace_try_bind (os : OS) {A B : Type} (p : prog A) (k : A -> prog B)
    (h : string -> prog B) (w : World os) :
  trace os (try_except (bind p k) h) w
  = (trace os p w
     ++ match run os p w with
        | (Ok a, w') => trace os (try_except (k a) h) w'
        | (Raised m, w') => trace os (h m) w'
        end)%list.
Proof.
  revert w. induction p as [a | m | e q IH]; intros w; simpl; try reflexivity.
  destruct (handle os e w) as [r w']. simpl. now rewrite IH.
Qed.

Lemma listed_bind (os : OS) {A B : Type} (p : prog A) (k : A -> prog B) (w : World os) :
  listed os (bind p k) w
  = (listed os p w
     ++ match run os p w with
        | (Ok a, w') => listed os (k a) w'
        | (Raised _, _) => []
        end)%list.
Proof.
  unfold listed. rewrite trace_bind, flat_map_app.
  now destruct (run os p w) as [[a | m] w'].
Qed.

Lemma listed_try_bind (os : OS) {A B : Type} (p : prog A) (k : A -> prog B)
    (h : string -> prog B) (w : World os) :
  listed os (try_except (bind p k) h) w
  = (listed os p w
     ++ match run os p w with
        | (Ok a, w') => listed os (try_except (k a) h) w'
        | (Raised m, w') => listed os (h m) w'
        end)%list.
Proof.
  unfold listed. rewrite trace_try_bind, flat_map_app.
  now destruct (run os p w) as [[a | m] w'].
Qed.

Lemma listed_read_only (os : OS) {A : Type} (p : prog A) (w : World os) :
  read_only p -> listed os p w = [].
Proof. induction 1 as [a | q k _ IH]; [reflexivity | apply IH]. Qed.

Lemma name_matches_cons (term : string) (e : walk_entry) (rest : list walk_entry) :
  length (name_matches term (e :: rest))
  = length (name_matches term [e]) + length (name_matches term rest).
Proof.
  change (e :: rest) with ([e] ++ rest)%list.
  now rewrite name_matches_app, length_app.
Qed.

Lemma search_in_dir_length (term root : string) (dirs files : list string)
    (found : list string) :
  length found < max_files ->
  length (search_in_dir term root files found)
  = Nat.min max_files (length found + length (name_matches term [(root, dirs, files)])).
Proof.
  intros H. rewrite (search_in_dir_spec term root files found H), length_firstn.
  cbn [name_matches flat_map]. now rewrite app_nil_r, length_app.
Qed.

(** Fewer than ten matches before the last entry: every entry is taken. *)
Lemma listed_search_loop_all (os : OS) (term : string) (w : World os)
    (entries : list walk_entry) :
  forall found,
  length found + length (name_matches term (removelast entries)) < max_files ->
  listed os (search_loop term entries found) w = map entry_root entries.
Proof.
  induction entries as [| [[root dirs] files] rest IH]; intros found H; [reflexivity |].
  cbn [search_loop]. rewrite listed_bind, run_generator_next.
  change (listed os (generator_next root) w) with [root].
  cbn [app map entry_root fst]. f_equal.
  destruct rest as [| e rest'].
  - destruct (max_files <=? length found)%nat; reflexivity.
  - change (removelast ((root, dirs, files) :: e :: rest'))
      with ((root, dirs, files) :: removelast (e :: rest')) in H.
    rewrite name_matches_cons in H.
    assert (Hlt : length found < max_files) by lia.
    destruct (max_files <=? length found)%nat eqn:Hfull;
      [apply Nat.leb_le in Hfull; lia |].
    apply IH. rewrite (search_in_dir_length term root dirs files found Hlt).
    destruct (Nat.min_spec max_files
                (length found + length (name_matches term [(root, dirs, files)])))
      as [[Hm ->] | [Hm ->]]; unfold walk_entry in *; lia.
Qed.

(** The tenth match comes with the entry [e]: the entry after it is still
    taken, and no other. *)
Lemma listed_search_loop_stop (os : OS) (term : string) (w : World os)
    (e next : walk_entry) (later before : list walk_entry) :
  forall found,
  length found + length (name_matches term before) < max_files ->
  max_files <= length found + length (name_matches term (before ++ [e])%list) ->
  listed os (search_loop term (before ++ e :: next :: later)%list found) w
  = map entry_root (before ++ [e; next])%list.
Proof.
  induction before as [| [[root dirs] files] before IH]; intros found Hlt Hge.
  - destruct e as [[root dirs] files]. destruct next as [[root' dirs'] files'].
    cbn [app search_loop]. rewrite listed_bind, run_generator_next.
    change (listed os (generator_next root) w) with [root].
    cbn [name_matches flat_map] in Hlt. simpl length in Hlt.
    assert (Hf : length found < max_files) by lia.
    destruct (max_files <=? length found)%nat eqn:Hfull;
      [apply Nat.leb_le in Hfull; lia |].
    rewrite listed_bind, run_generator_next.
    change (listed os (generator_next root') w) with [root'].
    pose proof (search_in_dir_length term root dirs files found Hf) as Hlen.
    change ([] ++ [(root, dirs, files)])%list with [(root, dirs, files)] in Hge.
    assert (Hten : max_files <= length (search_in_dir term root files found)).
    { rewrite Hlen.
      destruct (Nat.min_spec max_files
                  (length found + length (name_matches term [(root, dirs, files)])))
        as [[Hm ->] | [Hm ->]]; unfold walk_entry in *; lia. }
    apply Nat.leb_le in Hten. rewrite Hten. reflexivity.
  - cbn [app search_loop]. rewrite listed_bind, run_generator_next.
    change (listed os (generator_next root) w) with [root].
    cbn [map entry_root fst app]. f_equal.
    rewrite name_matches_cons in Hlt.
    change (((root, dirs, files) :: before) ++ [e])%list
      with ((root, dirs, files) :: (before ++ [e]))%list in Hge.
    rewrite name_matches_cons in Hge.
    assert (Hf : length found < max_files) by lia.
    destruct (max_files <=? length found)%nat eqn:Hfull;
      [apply Nat.leb_le in Hfull; lia |].
    pose proof (search_in_dir_length term root dirs files found Hf) as Hlen.
    apply IH; rewrite Hlen;
      destruct (Nat.min_spec max_files
                  (length found + length (name_matches term [(root, dirs, files)])))
        as [[Hm ->] | [Hm ->]]; unfold walk_entry in *; lia.
Qed.

(** C8 as stated fails on the last point: ten matches are collected from the
    first directory of the tree, and the second directory is listed all the
    same before the loop is left; the third is not. *)
Lemma search_files_lists_one_more_directory :
  length (search_walk "a" (firstn 1 (walk_ Toy.os Trees.w_many "/home/u/many")) []) = 10
  /\ listed Toy.os (search_files Toy.home (file_ops Toy.home) "a" "many") Trees.w_many
     = ["/home/u/many"; "/home/u/many/more"]
  /\ map entry_root (walk_ Toy.os Trees.w_many "/home/u/many")
     = ["/home/u/many"; "/home/u/many/more"; "/home/u/many/more/deep"].
Proof. repeat split. Qed.

(** C8, amended.  An empty term gives [No search term specified.] with no
    call at all.  Otherwise the files found are the first ten, in traversal
    order, of the files whose name contains the term when both are
    lower-cased: at most ten, each the path of such a file, and no file name
    after the tenth match is examined.  The walk does not stop at the tenth
    match itself: the test of line 302 comes after the generator has been
    asked again, so the directory that follows the one of the tenth match is
    still listed, and none after it; with fewer than ten matches before the
    last directory, every directory is listed.  The message counts the files
    found. *)
Theorem search_files_bounded (HOME_DIR : string) (self : FileOperations) :
  (forall search_path,
     search_files HOME_DIR self "" search_path = Ret "No search term specified.")
  /\ (forall term entries,
        search_walk term entries [] = firstn max_files (name_matches term entries)
        /\ length (search_walk term entries []) <= 10
        /\ Forall
             (fun p => exists root dirs files file,
                In (root, dirs, files) entries /\ In file files
                /\ p = posixpath.join root file
                /\ Str.contains (Str.lower term) (Str.lower file) = true)
             (search_walk term entries []))
  /\ (forall term before root dirs files later_files later,
        max_files <= length (name_matches term (before ++ [(root, dirs, files)])%list) ->
        search_walk term (before ++ (root, dirs, (files ++ later_files)%list) :: later)%list []
        = search_walk term (before ++ [(root, dirs, files)])%list [])
  /\ (forall term search_path (os : OS) (w : World os) base_path,
        term <> "" ->
        fst (run os (resolve_or_current HOME_DIR self search_path) w) = Ok base_path ->
        exists_ os w base_path = true ->
        run os (search_files HOME_DIR self term search_path) w
        = (Ok (match search_walk term (walk_ os w base_path) [] with
               | [] => "No files found containing '" ++ term ++ "' in " ++ base_path
               | found => "Found " ++ Str.of_nat (length found)
                          ++ " files containing '" ++ term ++ "'"
               end), w))
  /\ (forall term search_path (os : OS) (w : World os) base_path,
        term <> "" ->
        fst (run os (resolve_or_current HOME_DIR self search_path) w) = Ok base_path ->
        exists_ os w base_path = true ->
        (forall before e next later,
           walk_ os w base_path = (before ++ e :: next :: later)%list ->
           length (name_matches term before) < max_files ->
           max_files <= length (name_matches term (before ++ [e])%list) ->
           listed os (search_files HOME_DIR self term search_path) w
           = map entry_root (before ++ [e; next])%list)
        /\ (length (name_matches term (removelast (walk_ os w base_path))) < max_files ->
            listed os (search_files HOME_DIR self term search_path) w
            = map entry_root (walk_ os w base_path))).
Proof.
  assert (Hspec : forall term entries,
            search_walk term entries [] = firstn max_files (name_matches term entries)).
  { intros term entries. apply (search_walk_spec term entries []). simpl. lia. }
  split; [reflexivity | split; [| split; [| split]]].
  - intros term entries. split; [apply Hspec | split].
    + rewrite Hspec. apply firstn_le_length.
    + rewrite Hspec. apply Forall_forall. intros p Hp.
      apply in_firstn in Hp. unfold name_matches in Hp.
      apply in_flat_map in Hp as [[[root dirs] files] [He Hin]].
      apply in_map_iff in Hin as [file [<- Hf]]. apply filter_In in Hf as [Hf Hc].
      exists root, dirs, files, file. auto.
  - intros term before root dirs files later_files later Hfull.
    rewrite !Hspec.
    replace (before ++ (root, dirs, (files ++ later_files)%list) :: later)%list
      with ((before ++ [(root, dirs, (files ++ later_files)%list)]) ++ later)%list
      by now rewrite <- app_assoc.
    rewrite !name_matches_app in *.
    simpl name_matches in *. rewrite !app_nil_r in *.
    rewrite filter_app, map_app, !app_assoc.
    rewrite <- (app_assoc _ _ (name_matches term later)).
    rewrite firstn_app.
    match goal with
    | |- (_ ++ firstn ?k _)%list = _ => replace k with 0 by lia
    end.
    now rewrite app_nil_r.
  - intros term search_path os w base_path Hterm Hbase Hfound.
    apply run_resolve_or_current in Hbase.
    unfold search_files. destruct term as [| c r]; [contradiction |].
    cbv beta iota delta [Str.is_empty].
    rewrite run_try_bind, Hbase, run_try_bind, run_exists, Hfound.
    cbv beta iota delta [negb]. rewrite run_try_bind, run_walk. cbv beta iota.
    rewrite run_try_bind, run_search_loop. cbv beta iota.
    now destruct (search_walk (String c r) (walk_ os w base_path) []).
  - intros term search_path os w base_path Hterm Hbase Hfound.
    assert (Hlisted : listed os (search_files HOME_DIR self term search_path) w
                      = listed os (search_loop term (walk_ os w base_path) []) w).
    { pose proof (listed_read_only os _ w
                    (resolve_or_current_read_only HOME_DIR self search_path)) as Hnone.
      apply run_resolve_or_current in Hbase.
      unfold search_files. destruct term as [| c r]; [contradiction |].
      cbv beta iota delta [Str.is_empty].
      rewrite listed_try_bind, Hnone, Hbase. cbn [app].
      rewrite listed_try_bind, run_exists, Hfound. cbn [app]. cbv beta iota delta [negb].
      change (listed os (os_path_exists base_path) w) with (@nil string). cbn [app].
      rewrite listed_try_bind, run_walk.
      change (listed os (os_walk base_path) w) with (@nil string). cbn [app].
      rewrite listed_try_bind, run_search_loop.
      destruct (search_walk (String c r) (walk_ os w base_path) []);
        now rewrite app_nil_r. }
    rewrite Hlisted. split.
    + intros before e next later Hwalk Hlt Hge. rewrite Hwalk.
      apply listed_search_loop_stop; simpl; lia.
    + intros Hlt. apply listed_search_loop_all. simpl. lia.
Qed.

Lemma search_files_bounded_witness :
  run Toy.os (search_files Toy.home (file_ops Toy.home) "INCEP" "movies") Toy.w0
  = (Ok "Found 3 files containing 'INCEP'", Toy.w0)
  /\ search_walk "a"
       ([("/r", [], ["a0"; "a1"; "a2"; "b"; "a3"; "a4"; "a5"])]
        ++ ("/r/s", [], (["a6"; "x"; "a7"; "a8"; "a9"] ++ ["a10"; "a11"])%list)
           :: [("/r/t", [], ["a12"])])%list []
     = search_walk "a"
         ([("/r", [], ["a0"; "a1"; "a2"; "b"; "a3"; "a4"; "a5"])]
          ++ [("/r/s", [], ["a6"; "x"; "a7"; "a8"; "a9"])])%list []
  /\ listed Toy.os (search_files Toy.home (file_ops Toy.home) "a" "many") Trees.w_many
     = map entry_root
         ([] ++ [ ("/home/u/many", ["more"],
                   ["a0"; "a1"; "a2"; "a3"; "a4"; "a5"; "a6"; "a7"; "a8"; "a9"]);
                  ("/home/u/many/more", ["deep"], ["a10"]) ])%list
  /\ listed Toy.os (search_files Toy.home (file_ops Toy.home) "INCEP" "movies") Toy.w0
     = map entry_root (walk_ Toy.os Toy.w0 "/home/u/Movies").
Proof.
  destruct (search_files_bounded Toy.home (file_ops Toy.home))
    as [_ [_ [Hcut [Hrun Hlisted]]]].
  assert (Ha : "a" <> "") by discriminate.
  assert (Hi : "INCEP" <> "") by discriminate.
  destruct (Hlisted "a" "many" Toy.os Trees.w_many "/home/u/many" Ha eq_refl eq_refl)
    as [Hstop _].
  destruct (Hlisted "INCEP" "movies" Toy.os Toy.w0 "/home/u/Movies" Hi eq_refl eq_refl)
    as [_ Hall].
  split; [| split; [| split]].
  - apply (Hrun "INCEP" "movies" Toy.os Toy.w0 "/home/u/Movies");
      [discriminate | reflexivity | reflexivity].
  - apply Hcut. vm_compute. lia.
  - apply (Hstop [] _ _ [("/home/u/many/more/deep", [], ["a11"])]);
      [reflexivity | vm_compute; lia | vm_compute; lia].
  - apply Hall. vm_compute. lia.
Defined.

Example search_walk_stops_at_ten :
  search_walk "a"
    [ ("/r", [], ["a0"; "a1"; "a2"; "b"; "a3"; "a4"; "a5"]);
      ("/r/s", [], ["a6"; "x"; "a7"; "a8"; "a9"; "a10"; "a11"]);
      ("/r/t", [], ["a12"]) ] []
  = [ "/r/a0"; "/r/a1"; "/r/a2"; "/r/a3"; "/r/a4"; "/r/a5";
      "/r/s/a6"; "/r/s/a7"; "/r/s/a8"; "/r/s/a9" ].
Proof. reflexivity. Qed.

(** * Further properties of the handlers *)

Lemma run_makedirs (os : OS) (p : string) (w : World os) :
  run os (os_makedirs p) w = makedirs_ os w p.
Proof. simpl. now destruct (makedirs_ os w p) as [[[] | m] w']. Qed.

Lemma run_open_write (os : OS) (p content : string) (w : World os) :
  run os (open_write p content) w = open_write_ os w p content.
Proof. simpl. now destruct (open_write_ os w p content) as [[[] | m] w']. Qed.

Lemma run_rename (os : OS) (a b : string) (w : World os) :
  run os (os_rename a b) w = rename_ os w a b.
Proof. simpl. now destruct (rename_ os w a b) as [[[] | m] w']. Qed.

Lemma run_popen (os : OS) (argv : list string) (w : World os) :
  run os (Popen argv) w = popen_ os w argv.
Proof. simpl. now destruct (popen_ os w argv) as [[[] | m] w']. Qed.

(** The outcome of a changing call as the handlers report it: the message of
    success, or the prefix of the [except] clause followed by [str(e)]. *)
Lemma run_try_effect (os : OS) (p : prog unit) (done failed : string) (w : World os) :
  run os (try_except (_ <- p ;; Ret done) (fun e => Ret (failed ++ e))) w
  = (match fst (run os p w) with
     | Ok _ => Ok done
     | Raised e => Ok (failed ++ e)
     end, snd (run os p w)).
Proof.
  rewrite run_try_bind. now destruct (run os p w) as [[[] | m] w'].
Qed.

(** ** [create_folder] and [create_file] *)

(** X1.  [create_folder] never touches an existing target: it reports
    [Folder already exists] and changes nothing.  Otherwise its one changing
    call is [os.makedirs] on the base joined with the stripped name, and the
    message tells whether that call returned or raised. *)
Theorem create_folder_keeps_existing (HOME_DIR : string) (self : FileOperations)
    (os : OS) (w : World os) (folder_name location base : string) :
  fst (run os (resolve_or_current HOME_DIR self location) w) = Ok base ->
  let folder_path := posixpath.join base (Str.strip folder_name) in
  (exists_ os w folder_path = true ->
     run os (create_folder HOME_DIR self folder_name location) w
     = (Ok ("Folder already exists: " ++ folder_path), w))
  /\ (exists_ os w folder_path = false ->
      run os (create_folder HOME_DIR self folder_name location) w
      = (match fst (makedirs_ os w folder_path) with
         | Ok _ => Ok ("Created folder: " ++ folder_path)
         | Raised e => Ok ("Error creating folder: " ++ e)
         end, snd (makedirs_ os w folder_path))).
Proof.
  intros Hbase folder_path. apply run_resolve_or_current in Hbase.
  subst folder_path. unfold create_folder. cbv zeta. rewrite run_bind, Hbase.
  cbv beta iota.
  split; intros Hfound; rewrite run_try_bind, run_exists, Hfound.
  - reflexivity.
  - now rewrite run_try_effect, run_makedirs.
Qed.

Lemma create_folder_keeps_existing_witness :
  run Toy.os (create_folder Toy.home (file_ops Toy.home) " s " "") Toy.w0
  = (Ok "Folder already exists: /home/u/s", Toy.w0)
  /\ fst (run Toy.os (create_folder Toy.home (file_ops Toy.home) "reports" "desktop") Toy.w0)
     = Ok "Created folder: /home/u/Desktop/reports".
Proof.
  split.
  - apply (create_folder_keeps_existing Toy.home (file_ops Toy.home) Toy.os Toy.w0
             " s " "" "/home/u"); reflexivity.
  - destruct (create_folder_keeps_existing Toy.home (file_ops Toy.home) Toy.os Toy.w0
                "reports" "desktop" "/home/u/Desktop" eq_refl) as [_ Hnew].
    rewrite (Hnew eq_refl). reflexivity.
Defined.

(** X2.  [create_file] never opens an existing target, so its content is
    never overwritten.  Otherwise the one changing call opens the base joined
    with the stripped name for writing, with the given content. *)
Theorem create_file_keeps_existing (HOME_DIR : string) (self : FileOperations)
    (os : OS) (w : World os) (file_name location content base : string) :
  fst (run os (resolve_or_current HOME_DIR self location) w) = Ok base ->
  let file_path := posixpath.join base (Str.strip file_name) in
  (exists_ os w file_path = true ->
     run os (create_file HOME_DIR self file_name location content) w
     = (Ok ("File already exists: " ++ file_path), w))
  /\ (exists_ os w file_path = false ->
      run os (create_file HOME_DIR self file_name location content) w
      = (match fst (open_write_ os w file_path content) with
         | Ok _ => Ok ("Created file: " ++ file_path)
         | Raised e => Ok ("Error creating file: " ++ e)
         end, snd (open_write_ os w file_path content))).
Proof.
  intros Hbase file_path. apply run_resolve_or_current in Hbase.
  subst file_path. unfold create_file. cbv zeta. rewrite run_bind, Hbase.
  cbv beta iota.
  split; intros Hfound; rewrite run_try_bind, run_exists, Hfound.
  - reflexivity.
  - now rewrite run_try_effect, run_open_write.
Qed.

Lemma create_file_keeps_existing_witness :
  run Toy.os (create_file Toy.home (file_ops Toy.home) "a.txt" "s" "new text") Toy.w0
  = (Ok "File already exists: /home/u/s/a.txt", Toy.w0)
  /\ fst (run Toy.os (create_file Toy.home (file_ops Toy.home) "c.txt" "s" "new text") Toy.w0)
     = Ok "Created file: /home/u/s/c.txt".
Proof.
  split.
  - apply (create_file_keeps_existing Toy.home (file_ops Toy.home) Toy.os Toy.w0
             "a.txt" "s" "new text" "/home/u/s"); reflexivity.
  - destruct (create_file_keeps_existing Toy.home (file_ops Toy.home) Toy.os Toy.w0
                "c.txt" "s" "new text" "/home/u/s" eq_refl) as [_ Hnew].
    rewrite (Hnew eq_refl). reflexivity.
Defined.

(** ** [rename_item] *)

(** X3.  [rename_item] joins both names with the same base.  A missing source
    and an existing destination are each reported with nothing changed, the
    missing source first; only with the source present and the destination
    free is [os.rename] called, once, from the old path to the new one. *)
Theorem rename_item_cases (HOME_DIR : string) (self : FileOperations)
    (os : OS) (w : World os) (old_name new_name location base : string) :
  fst (run os (resolve_or_current HOME_DIR self location) w) = Ok base ->
  let old_path := posixpath.join base old_name in
  let new_path := posixpath.join base new_name in
  (exists_ os w old_path = false ->
     run os (rename_item HOME_DIR self old_name new_name location) w
     = (Ok ("Source does not exist: " ++ old_path), w))
  /\ (exists_ os w old_path = true -> exists_ os w new_path = true ->
      run os (rename_item HOME_DIR self old_name new_name location) w
      = (Ok ("Destination already exists: " ++ new_path), w))
  /\ (exists_ os w old_path = true -> exists_ os w new_path = false ->
      run os (rename_item HOME_DIR self old_name new_name location) w
      = (match fst (rename_ os w old_path new_path) with
         | Ok _ => Ok ("Renamed from " ++ old_path ++ " to " ++ new_path)
         | Raised e => Ok ("Error renaming item: " ++ e)
         end, snd (rename_ os w old_path new_path))).
Proof.
  intros Hbase old_path new_path. apply run_resolve_or_current in Hbase.
  subst old_path new_path. unfold rename_item. rewrite run_bind, Hbase.
  cbv beta iota zeta.
  repeat split.
  - intros Hsrc. now rewrite run_try_bind, run_exists, Hsrc.
  - intros Hsrc Hdst. rewrite run_try_bind, run_exists, Hsrc. cbv beta iota delta [negb].
    now rewrite run_try_bind, run_exists, Hdst.
  - intros Hsrc Hdst. rewrite run_try_bind, run_exists, Hsrc. cbv beta iota delta [negb].
    rewrite run_try_bind, run_exists, Hdst. cbv beta iota.
    now rewrite run_try_effect, run_rename.
Qed.

Lemma rename_item_cases_witness :
  run Toy.os (rename_item Toy.home (file_ops Toy.home) "nope.txt" "x.txt" "s") Toy.w0
  = (Ok "Source does not exist: /home/u/s/nope.txt", Toy.w0)
  /\ run Toy.os (rename_item Toy.home (file_ops Toy.home) "a.txt" "b.txt" "s") Toy.w0
     = (Ok "Destination already exists: /home/u/s/b.txt", Toy.w0)
  /\ fst (run Toy.os (rename_item Toy.home (file_ops Toy.home) "a.txt" "c.txt" "s") Toy.w0)
     = Ok "Renamed from /home/u/s/a.txt to /home/u/s/c.txt".
Proof.
  destruct (rename_item_cases Toy.home (file_ops Toy.home) Toy.os Toy.w0
              "nope.txt" "x.txt" "s" "/home/u/s" eq_refl) as [H1 _].
  destruct (rename_item_cases Toy.home (file_ops Toy.home) Toy.os Toy.w0
              "a.txt" "b.txt" "s" "/home/u/s" eq_refl) as [_ [H2 _]].
  destruct (rename_item_cases Toy.home (file_ops Toy.home) Toy.os Toy.w0
              "a.txt" "c.txt" "s" "/home/u/s" eq_refl) as [_ [_ H3]].
  split; [exact (H1 eq_refl) | split; [exact (H2 eq_refl eq_refl) |]].
  rewrite (H3 eq_refl eq_refl). reflexivity.
Defined.

(** ** [move_item] outside the move-into case *)

(** X4.  A missing source is reported without looking at the destination and
    with nothing changed.  With the source present and a destination that is
    not a directory, the destination itself is the target: if it exists it is
    never overwritten, otherwise [shutil.move] is called once, from the
    source to it. *)
Theorem move_item_plain_destination (HOME_DIR : string) (os : OS) (w : World os)
    (source destination sp dp : string) :
  fst (run os (resolve_path HOME_DIR (file_ops HOME_DIR) source) w) = Ok sp ->
  fst (run os (resolve_path HOME_DIR (file_ops HOME_DIR) destination) w) = Ok dp ->
  (exists_ os w sp = false ->
     run os (move_item HOME_DIR (file_ops HOME_DIR) source destination) w
     = (Ok ("Source does not exist: " ++ sp), w))
  /\ (exists_ os w sp = true -> isdir_ os w dp = false -> exists_ os w dp = true ->
      run os (move_item HOME_DIR (file_ops HOME_DIR) source destination) w
      = (Ok ("Destination already exists: " ++ dp), w))
  /\ (exists_ os w sp = true -> isdir_ os w dp = false -> exists_ os w dp = false ->
      run os (move_item HOME_DIR (file_ops HOME_DIR) source destination) w
      = (match fst (move_ os w sp dp) with
         | Ok _ => Ok ("Moved from " ++ sp ++ " to " ++ dp)
         | Raised e => Ok ("Error moving item: " ++ e)
         end, snd (move_ os w sp dp))).
Proof.
  intros Hsp Hdp. apply run_resolved in Hsp. apply run_resolved in Hdp.
  unfold move_item. rewrite run_try_bind, Hsp, run_try_bind, Hdp.
  repeat split.
  - intros Hsrc. now rewrite run_try_bind, run_exists, Hsrc.
  - intros Hsrc Hdir Hdst. rewrite run_try_bind, run_exists, Hsrc.
    cbv beta iota delta [negb]. rewrite run_try_bind, run_isdir, Hdir. cbv beta iota zeta.
    now rewrite run_try_bind, run_exists, Hdst.
  - intros Hsrc Hdir Hdst. rewrite run_try_bind, run_exists, Hsrc.
    cbv beta iota delta [negb]. rewrite run_try_bind, run_isdir, Hdir. cbv beta iota zeta.
    rewrite run_try_bind, run_exists, Hdst. cbv beta iota.
    now rewrite run_try_effect, run_move.
Qed.

Lemma move_item_plain_destination_witness :
  run Toy.os (move_item Toy.home (file_ops Toy.home) "s/nope.txt" "d") Toy.w0
  = (Ok "Source does not exist: /home/u/s/nope.txt", Toy.w0)
  /\ run Toy.os (move_item Toy.home (file_ops Toy.home) "s/a.txt" "d/b.txt") Toy.w0
     = (Ok "Destination already exists: /home/u/d/b.txt", Toy.w0)
  /\ fst (run Toy.os (move_item Toy.home (file_ops Toy.home) "s/a.txt" "d/z.txt") Toy.w0)
     = Ok "Moved from /home/u/s/a.txt to /home/u/d/z.txt".
Proof.
  destruct (move_item_plain_destination Toy.home Toy.os Toy.w0 "s/nope.txt" "d"
              "/home/u/s/nope.txt" "/home/u/d" eq_refl eq_refl) as [H1 _].
  destruct (move_item_plain_destination Toy.home Toy.os Toy.w0 "s/a.txt" "d/b.txt"
              "/home/u/s/a.txt" "/home/u/d/b.txt" eq_refl eq_refl) as [_ [H2 _]].
  destruct (move_item_plain_destination Toy.home Toy.os Toy.w0 "s/a.txt" "d/z.txt"
              "/home/u/s/a.txt" "/home/u/d/z.txt" eq_refl eq_refl) as [_ [_ H3]].
  split; [exact (H1 eq_refl) | split; [exact (H2 eq_refl eq_refl eq_refl) |]].
  rewrite (H3 eq_refl eq_refl eq_refl). reflexivity.
Defined.

(** ** [move_all_files]: what is refused, and a move that raises *)

(** X5.  The four checks of [move_all_files] are made in a fixed order
    (source exists, source is a directory, destination exists, destination
    is a directory); the first that fails gives its own message, names the
    path, and nothing is listed or moved.  A listing that raises is reported
    as [Error moving files]. *)
Theorem move_all_files_refusals (HOME_DIR : string) (os : OS) (w : World os)
    (source_dir destination_dir sp dp : string) :
  fst (run os (resolve_path HOME_DIR (file_ops HOME_DIR) source_dir) w) = Ok sp ->
  fst (run os (resolve_path HOME_DIR (file_ops HOME_DIR) destination_dir) w) = Ok dp ->
  let result :=
    run os (move_all_files HOME_DIR (file_ops HOME_DIR) source_dir destination_dir) w in
  (exists_ os w sp = false ->
     result = (Ok ("Source directory does not exist: " ++ sp), w))
  /\ (exists_ os w sp = true -> isdir_ os w sp = false ->
      result = (Ok ("Source is not a directory: " ++ sp), w))
  /\ (exists_ os w sp = true -> isdir_ os w sp = true -> exists_ os w dp = false ->
      result = (Ok ("Destination directory does not exist: " ++ dp), w))
  /\ (exists_ os w sp = true -> isdir_ os w sp = true -> exists_ os w dp = true ->
      isdir_ os w dp = false ->
      result = (Ok ("Destination is not a directory: " ++ dp), w))
  /\ (exists_ os w sp = true -> isdir_ os w sp = true -> exists_ os w dp = true ->
      isdir_ os w dp = true ->
      forall e, listdir_ os w sp = Raised e ->
      result = (Ok ("Error moving files: " ++ e), w)).
Proof.
  intros Hsp Hdp result. subst result.
  apply run_resolved in Hsp. apply run_resolved in Hdp.
  unfold move_all_files. rewrite run_try_bind, Hsp, run_try_bind, Hdp.
  repeat split.
  - intros H1. now rewrite run_try_bind, run_exists, H1.
  - intros H1 H2. rewrite run_try_bind, run_exists, H1. cbv beta iota delta [negb].
    now rewrite run_try_bind, run_isdir, H2.
  - intros H1 H2 H3. rewrite run_try_bind, run_exists, H1. cbv beta iota delta [negb].
    rewrite run_try_bind, run_isdir, H2. cbv beta iota delta [negb].
    now rewrite run_try_bind, run_exists, H3.
  - intros H1 H2 H3 H4. rewrite run_try_bind, run_exists, H1. cbv beta iota delta [negb].
    rewrite run_try_bind, run_isdir, H2. cbv beta iota delta [negb].
    rewrite run_try_bind, run_exists, H3. cbv beta iota delta [negb].
    now rewrite run_try_bind, run_isdir, H4.
  - intros H1 H2 H3 H4 e He. rewrite run_try_bind, run_exists, H1.
    cbv beta iota delta [negb].
    rewrite run_try_bind, run_isdir, H2. cbv beta iota delta [negb].
    rewrite run_try_bind, run_exists, H3. cbv beta iota delta [negb].
    rewrite run_try_bind, run_isdir, H4. cbv beta iota delta [negb].
    now rewrite run_try_bind, run_listdir, He.
Qed.

Lemma move_all_files_refusals_witness :
  run Toy.os (move_all_files Toy.home (file_ops Toy.home) "nowhere" "d") Toy.w0
  = (Ok "Source directory does not exist: /home/u/nowhere", Toy.w0)
  /\ run Toy.os (move_all_files Toy.home (file_ops Toy.home) "s/a.txt" "nowhere") Toy.w0
     = (Ok "Source is not a directory: /home/u/s/a.txt", Toy.w0)
  /\ run Toy.os (move_all_files Toy.home (file_ops Toy.home) "s" "d/b.txt") Toy.w0
     = (Ok "Destination is not a directory: /home/u/d/b.txt", Toy.w0).
Proof.
  destruct (move_all_files_refusals Toy.home Toy.os Toy.w0 "nowhere" "d"
              "/home/u/nowhere" "/home/u/d" eq_refl eq_refl) as [H1 _].
  destruct (move_all_files_refusals Toy.home Toy.os Toy.w0 "s/a.txt" "nowhere"
              "/home/u/s/a.txt" "/home/u/nowhere" eq_refl eq_refl) as [_ [H2 _]].
  destruct (move_all_files_refusals Toy.home Toy.os Toy.w0 "s" "d/b.txt"
              "/home/u/s" "/home/u/d/b.txt" eq_refl eq_refl) as [_ [_ [_ [H4 _]]]].
  split; [exact (H1 eq_refl) | split; [exact (H2 eq_refl eq_refl) |]].
  exact (H4 eq_refl eq_refl eq_refl eq_refl).
Defined.

Lemma run_move_loop_app (os : OS) (sp dp : string) (done rest : list string) :
  forall (w : World os) (moved skipped : nat),
  moves_behave os sp dp done w ->
  run os (move_loop sp dp (done ++ rest)%list moved skipped) w
  = run os
      (move_loop sp dp rest
         (moved + length (filter (fun f => negb (exists_ os w (posixpath.join dp f))) done))
         (skipped + length (filter (fun f => exists_ os w (posixpath.join dp f)) done)))
      (after_moves os sp dp
         (filter (fun f => negb (exists_ os w (posixpath.join dp f))) done) w).
Proof.
  induction done as [| file more IH]; intros w moved skipped Hb.
  - simpl. now rewrite !Nat.add_0_r.
  - simpl in Hb. cbn [app move_loop]. rewrite run_bind, run_exists. cbv beta iota.
    simpl filter.
    destruct (exists_ os w (posixpath.join dp file)) eqn:Hfound.
    + rewrite (IH w moved (skipped + 1) Hb). simpl.
      now rewrite <- !Nat.add_assoc.
    + destruct Hb as [Hok [Hframe Hrest]].
      rewrite run_bind, run_move.
      destruct (move_ os w (posixpath.join sp file) (posixpath.join dp file))
        as [r w1] eqn:Hmove.
      simpl in Hok, Hframe, Hrest. subst r.
      rewrite (IH w1 (moved + 1) skipped Hrest).
      rewrite (filter_ext_in (fun f => negb (exists_ os w1 (posixpath.join dp f)))
                 (fun f => negb (exists_ os w (posixpath.join dp f))) more),
              (filter_ext_in (fun f => exists_ os w1 (posixpath.join dp f))
                 (fun f => exists_ os w (posixpath.join dp f)) more);
        [| exact Hframe | intros g Hg; now rewrite Hframe].
      simpl. unfold after_moves. simpl. rewrite Hmove. simpl.
      now rewrite <- !Nat.add_assoc.
Qed.

(** X6.  There is no rollback.  When the moves of the files [done] went
    well and the move of the next file raises, the handler reports
    [Error moving files] with the text of the exception instead of any
    count, the files after it are not looked at, and the moves already made
    stay made: the world is the one left by them and by the call that
    raised. *)
Theorem move_all_files_stops_at_failure (HOME_DIR : string) (os : OS) (w : World os)
    (source_dir destination_dir sp dp : string) (names done rest : list string)
    (file e : string) (w_failed : World os) :
  fst (run os (resolve_path HOME_DIR (file_ops HOME_DIR) source_dir) w) = Ok sp ->
  fst (run os (resolve_path HOME_DIR (file_ops HOME_DIR) destination_dir) w) = Ok dp ->
  exists_ os w sp = true -> isdir_ os w sp = true ->
  exists_ os w dp = true -> isdir_ os w dp = true ->
  listdir_ os w sp = Ok names ->
  filter (fun f => isfile_ os w (posixpath.join sp f)) names = (done ++ file :: rest)%list ->
  moves_behave os sp dp done w ->
  let w_done :=
    after_moves os sp dp
      (filter (fun f => negb (exists_ os w (posixpath.join dp f))) done) w in
  exists_ os w_done (posixpath.join dp file) = false ->
  move_ os w_done (posixpath.join sp file) (posixpath.join dp file) = (Raised e, w_failed) ->
  run os (move_all_files HOME_DIR (file_ops HOME_DIR) source_dir destination_dir) w
  = (Ok ("Error moving files: " ++ e), w_failed).
Proof.
  intros Hsp Hdp Hse Hsd Hde Hdd Hls Hfiles Hb w_done Habsent Hraise.
  apply run_resolved in Hsp. apply run_resolved in Hdp.
  unfold move_all_files.
  rewrite run_try_bind, Hsp, run_try_bind, Hdp.
  rewrite run_try_bind, run_exists, Hse. cbv beta iota delta [negb].
  rewrite run_try_bind, run_isdir, Hsd. cbv beta iota delta [negb].
  rewrite run_try_bind, run_exists, Hde. cbv beta iota delta [negb].
  rewrite run_try_bind, run_isdir, Hdd. cbv beta iota delta [negb].
  rewrite run_try_bind, run_listdir, Hls.
  rewrite run_try_bind, run_files_to_move, Hfiles.
  assert (Hloop : forall m s,
            run os (move_loop sp dp (done ++ file :: rest) m s) w = (Raised e, w_failed)).
  { intros m s. rewrite (run_move_loop_app os sp dp done (file :: rest) w m s Hb).
    fold w_done. cbn [move_loop]. rewrite run_bind, run_exists, Habsent. cbv beta iota.
    now rewrite run_bind, run_move, Hraise. }
  destruct (done ++ file :: rest)%list as [| f l] eqn:Hl;
    [now destruct done |].
  now rewrite run_try_bind, Hloop.
Qed.

Lemma move_all_files_stops_at_failure_witness :
  run Faulty.os (move_all_files Toy.home (file_ops Toy.home) "s" "d") Faulty.w1
  = (Ok "Error moving files: [Errno 13] Permission denied: '/home/u/d/k.lock'",
     snd (Toy.t_move Faulty.w1 "/home/u/s/a.txt" "/home/u/d/a.txt"))
  /\ Toy.t_exists (snd (Toy.t_move Faulty.w1 "/home/u/s/a.txt" "/home/u/d/a.txt"))
       "/home/u/d/a.txt" = true
  /\ Toy.t_exists (snd (Toy.t_move Faulty.w1 "/home/u/s/a.txt" "/home/u/d/a.txt"))
       "/home/u/s/z.txt" = true.
Proof.
  split; [| split; reflexivity].
  assert (Hb : moves_behave Faulty.os "/home/u/s" "/home/u/d" ["a.txt"; "b.txt"] Faulty.w1).
  { split; [reflexivity | split; [| exact I]].
    intros g [<- | []]. reflexivity. }
  apply (move_all_files_stops_at_failure Toy.home Faulty.os Faulty.w1 "s" "d"
           "/home/u/s" "/home/u/d" ["a.txt"; "b.txt"; "k.lock"; "z.txt"]
           ["a.txt"; "b.txt"] ["z.txt"] "k.lock");
    try reflexivity; exact Hb.
Defined.

(** ** [open_file_explorer] *)

Lemma posix_launcher (a b c : prog unit) :
  (if String.eqb os_name "nt" then a else if String.eqb os_name "posix" then b else c) = b.
Proof. reflexivity. Qed.

Lemma run_posix_open (os : OS) (target : string) (w : World os) :
  run os (posix_open target) w
  = popen_ os w [if exists_ os w "/usr/bin/open" then "open" else "xdg-open"; target].
Proof.
  unfold posix_open. rewrite run_bind, run_exists. cbv beta iota.
  destruct (exists_ os w "/usr/bin/open"); apply run_popen.
Qed.

(** X7.  A missing location is reported and no launcher is started.  For an
    existing one exactly one launcher is started on the resolved path,
    [open] when [/usr/bin/open] exists and [xdg-open] otherwise; the message
    [Opened file explorer at] says that the call returned, and a call that
    raises is reported as an error. *)
Theorem open_file_explorer_launch (HOME_DIR : string) (self : FileOperations)
    (os : OS) (w : World os) (location path_to_open : string) :
  fst (run os (resolve_or_current HOME_DIR self location) w) = Ok path_to_open ->
  let argv :=
    [if exists_ os w "/usr/bin/open" then "open" else "xdg-open"; path_to_open] in
  (exists_ os w path_to_open = false ->
     run os (open_file_explorer HOME_DIR self location) w
     = (Ok ("Location does not exist: " ++ path_to_open), w))
  /\ (exists_ os w path_to_open = true ->
      run os (open_file_explorer HOME_DIR self location) w
      = (match fst (popen_ os w argv) with
         | Ok _ => Ok ("Opened file explorer at: " ++ path_to_open)
         | Raised e => Ok ("Error opening file explorer: " ++ e)
         end, snd (popen_ os w argv))).
Proof.
  intros Hbase argv. subst argv. apply run_resolve_or_current in Hbase.
  unfold open_file_explorer. rewrite run_try_bind, Hbase.
  split; intros Hfound; rewrite run_try_bind, run_exists, Hfound.
  - reflexivity.
  - cbv beta iota delta [negb]. rewrite posix_launcher.
    now rewrite run_try_effect, run_posix_open.
Qed.

Lemma open_file_explorer_launch_witness :
  run Toy.os (open_file_explorer Toy.home (file_ops Toy.home) "pictures") Toy.w0
  = (Ok "Location does not exist: /home/u/Pictures", Toy.w0)
  /\ fst (run Toy.os (open_file_explorer Toy.home (file_ops Toy.home) "movies") Toy.w0)
     = Ok "Opened file explorer at: /home/u/Movies"
  /\ Toy.launched
       (snd (run Toy.os (open_file_explorer Toy.home (file_ops Toy.home) "movies") Toy.w0))
     = [["xdg-open"; "/home/u/Movies"]].
Proof.
  destruct (open_file_explorer_launch Toy.home (file_ops Toy.home) Toy.os Toy.w0
              "pictures" "/home/u/Pictures" eq_refl) as [H1 _].
  destruct (open_file_explorer_launch Toy.home (file_ops Toy.home) Toy.os Toy.w0
              "movies" "/home/u/Movies" eq_refl) as [_ H2].
  split; [exact (H1 eq_refl) |].
  rewrite (H2 eq_refl). split; reflexivity.
Defined.

(** ** What only reads *)

Lemma queries_only_run (os : OS) {A : Type} (p : prog A) :
  queries_only p -> forall w, snd (run os p w) = w.
Proof.
  induction 1 as [a | m | e k He _ IH]; intros w; try reflexivity.
  simpl. destruct e; try discriminate; simpl; apply IH.
Qed.

Lemma queries_only_bind {A B : Type} (p : prog A) (f : A -> prog B) :
  queries_only p -> (forall a, queries_only (f a)) -> queries_only (bind p f).
Proof.
  intros Hp Hf. induction Hp as [a | m | e k He _ IH]; simpl; auto.
  - constructor.
  - constructor; auto.
Qed.

Lemma queries_only_try_except {A : Type} (p : prog A) (h : string -> prog A) :
  queries_only p -> (forall m, queries_only (h m)) -> queries_only (try_except p h).
Proof.
  intros Hp Hh. induction Hp as [a | m | e k He _ IH]; simpl; auto.
  - constructor.
  - constructor; auto.
Qed.

Lemma read_only_queries_only {A : Type} (p : prog A) : read_only p -> queries_only p.
Proof. induction 1; constructor; auto. Qed.

(** X8.  [search_files] only asks: whatever the term, the location and the
    answers of the system, its calls are [os.path.exists] and [os.walk], so
    no file or directory is created, moved or opened and the world after the
    search is the world before it. *)
Theorem search_files_changes_nothing (HOME_DIR : string) (self : FileOperations)
    (search_term search_path : string) :
  queries_only (search_files HOME_DIR self search_term search_path)
  /\ forall (os : OS) (w : World os),
       snd (run os (search_files HOME_DIR self search_term search_path) w) = w.
Proof.
  assert (H : queries_only (search_files HOME_DIR self search_term search_path)).
  { unfold search_files. destruct (Str.is_empty search_term); [constructor |].
    apply queries_only_try_except; [| intros; constructor].
    apply queries_only_bind;
      [apply read_only_queries_only, resolve_or_current_read_only | intros base].
    constructor; [reflexivity | intros found].
    destruct (negb found); [constructor |].
    constructor; [reflexivity | intros entries].
    apply queries_only_bind.
    - generalize (@nil string). induction entries as [| [[root dirs] files] rest IH];
        intros acc; [constructor |].
      cbn [search_loop]. constructor; [reflexivity | intros _].
      destruct (max_files <=? length acc)%nat; [constructor | apply IH].
    - intros files. destruct files; constructor. }
  split; [exact H | intros os w; now apply queries_only_run].
Qed.

(** X9.  A search in a location that does not exist says so and walks
    nothing; a search that finds no name containing the term says so, naming
    the term and the location. *)
Theorem search_files_nothing_found (HOME_DIR : string) (self : FileOperations)
    (os : OS) (w : World os) (search_term search_path base_path : string) :
  search_term <> "" ->
  fst (run os (resolve_or_current HOME_DIR self search_path) w) = Ok base_path ->
  (exists_ os w base_path = false ->
     run os (search_files HOME_DIR self search_term search_path) w
     = (Ok ("Search location does not exist: " ++ base_path), w))
  /\ (exists_ os w base_path = true ->
      name_matches search_term (walk_ os w base_path) = [] ->
      run os (search_files HOME_DIR self search_term search_path) w
      = (Ok ("No files found containing '" ++ search_term ++ "' in " ++ base_path), w)).
Proof.
  intros Hterm Hbase. apply run_resolve_or_current in Hbase.
  unfold search_files. destruct search_term as [| c r]; [contradiction |].
  cbv beta iota delta [Str.is_empty]. rewrite run_try_bind, Hbase.
  split.
  - intros Hfound. now rewrite run_try_bind, run_exists, Hfound.
  - intros Hfound Hnone. rewrite run_try_bind, run_exists, Hfound.
    cbv beta iota delta [negb]. rewrite run_try_bind, run_walk. cbv beta iota.
    rewrite run_try_bind, run_search_loop. cbv beta iota.
    rewrite (search_walk_spec (String c r) (walk_ os w base_path) []) by (simpl; lia).
    now rewrite Hnone.
Qed.

Lemma search_files_nothing_found_witness :
  run Toy.os (search_files Toy.home (file_ops Toy.home) "budget" "documents") Toy.w0
  = (Ok "Search location does not exist: /home/u/Documents", Toy.w0)
  /\ run Toy.os (search_files Toy.home (file_ops Toy.home) "budget" "movies") Toy.w0
     = (Ok "No files found containing 'budget' in /home/u/Movies", Toy.w0).
Proof.
  assert (Hterm : "budget" <> "") by discriminate.
  destruct (search_files_nothing_found Toy.home (file_ops Toy.home) Toy.os Toy.w0
              "budget" "documents" "/home/u/Documents" Hterm eq_refl) as [H1 _].
  destruct (search_files_nothing_found Toy.home (file_ops Toy.home) Toy.os Toy.w0
              "budget" "movies" "/home/u/Movies" Hterm eq_refl) as [_ H2].
  split; [exact (H1 eq_refl) | exact (H2 eq_refl eq_refl)].
Defined.

(** ** [play_movie]: nothing to play, and what is played *)

(** X10.  With no movies directory, or with no scored candidate in it,
    [play_movie] reports it and starts no player: the world is left as it
    was. *)
Theorem play_movie_nothing_to_play (HOME_DIR : string) (self : FileOperations)
    (os : OS) (w : World os) (movie_name : string) :
  movie_name <> "" ->
  (exists_ os w (MOVIES_DIR HOME_DIR) = false ->
     run os (play_movie HOME_DIR self movie_name) w
     = (Ok ("Movies directory does not exist: " ++ MOVIES_DIR HOME_DIR), w))
  /\ (exists_ os w (MOVIES_DIR HOME_DIR) = true ->
      candidates self movie_name (walk_ os w (MOVIES_DIR HOME_DIR)) = [] ->
      run os (play_movie HOME_DIR self movie_name) w
      = (Ok ("No movie found with name '" ++ movie_name ++ "'"), w)).
Proof.
  intros Hname. unfold play_movie.
  destruct movie_name as [| c r]; [contradiction |].
  cbv beta iota delta [Str.is_empty]. rewrite movies_lookup.
  split.
  - intros Hdir. now rewrite run_try_bind, run_exists, Hdir.
  - intros Hdir Hnone. rewrite run_try_bind, run_exists, Hdir.
    cbv beta iota delta [negb]. rewrite run_try_bind, run_walk. cbv beta iota.
    rewrite run_try_bind, run_scan_loop. cbv beta iota.
    rewrite (scan_walk_spec self (String c r) (walk_ os w (MOVIES_DIR HOME_DIR)) []).
    now rewrite Hnone.
Qed.

Lemma play_movie_nothing_to_play_witness :
  run Toy.os (play_movie Toy.home (file_ops Toy.home) "heat")
      (Toy.add_node Toy.w0 "/tmp" true)
  = (Ok "No movie found with name 'heat'", Toy.add_node Toy.w0 "/tmp" true)
  /\ run Toy.os (play_movie "/root" (file_ops "/root") "heat") Toy.w0
     = (Ok "Movies directory does not exist: /root/Movies", Toy.w0).
Proof.
  assert (Hname : "heat" <> "") by discriminate.
  destruct (play_movie_nothing_to_play Toy.home (file_ops Toy.home) Toy.os
              (Toy.add_node Toy.w0 "/tmp" true) "heat" Hname) as [_ H2].
  destruct (play_movie_nothing_to_play "/root" (file_ops "/root") Toy.os Toy.w0
              "heat" Hname) as [H1 _].
  split; [exact (H2 eq_refl eq_refl) | exact (H1 eq_refl)].
Defined.

Lemma in_scan_walk (self : FileOperations) (movie_name : string)
    (entries : list walk_entry) (c : string * nat) :
  In c (scan_walk self movie_name entries []) ->
  exists root dirs files file,
    In (root, dirs, files) entries /\ In file files
    /\ c = (posixpath.join root file, match_score movie_name file)
    /\ is_video self file = true /\ 0 < match_score movie_name file.
Proof.
  rewrite (scan_walk_spec self movie_name entries []). simpl.
  unfold candidates. rewrite in_flat_map.
  intros [[[root dirs] files] [He Hin]]. apply in_map_iff in Hin as [f [<- Hf]].
  apply filter_In in Hf as [Hf Hkeep]. apply andb_true_iff in Hkeep as [Hv Hs].
  apply Nat.ltb_lt in Hs. exists root, dirs, files, f.
  rewrite match_score_spec. auto.
Qed.

(** X11.  The file handed to the player is always a file of the movies tree
    whose lower-cased name ends in one of the known video extensions and
    whose score for the name asked is positive; exactly one launcher is
    started, on that file, and the message tells whether the call returned
    or raised. *)
Theorem play_movie_plays_scored_video (HOME_DIR : string) (self : FileOperations)
    (os : OS) (w : World os) (movie_name : string) :
  movie_name <> "" ->
  exists_ os w (MOVIES_DIR HOME_DIR) = true ->
  scan_walk self movie_name (walk_ os w (MOVIES_DIR HOME_DIR)) [] <> [] ->
  exists root dirs files file,
    In (root, dirs, files) (walk_ os w (MOVIES_DIR HOME_DIR)) /\ In file files
    /\ is_video self file = true
    /\ 0 < match_score movie_name file
    /\ let best := posixpath.join root file in
       let argv := [if exists_ os w "/usr/bin/open" then "open" else "xdg-open"; best] in
       run os (play_movie HOME_DIR self movie_name) w
       = (match fst (popen_ os w argv) with
          | Ok _ => Ok ("Playing movie: " ++ posixpath.basename best)
          | Raised e => Ok ("Error playing movie: " ++ e)
          end, snd (popen_ os w argv)).
Proof.
  intros Hname Hdir Hfound.
  destruct (sort_desc_head _ Hfound)
    as [best [score [rest [before [after [Hs [Hl _]]]]]]].
  assert (Hin : In (best, score)
                  (scan_walk self movie_name (walk_ os w (MOVIES_DIR HOME_DIR)) [])).
  { rewrite Hl. apply in_or_app. right. now left. }
  apply in_scan_walk in Hin as [root [dirs [files [file [He [Hf [Hc [Hv Hpos]]]]]]]].
  injection Hc as Hbest Hscore.
  exists root, dirs, files, file. repeat split; auto.
  cbv zeta. rewrite <- Hbest. unfold play_movie.
  destruct movie_name as [| c r]; [contradiction |].
  cbv beta iota delta [Str.is_empty]. rewrite movies_lookup.
  rewrite run_try_bind, run_exists, Hdir. cbv beta iota delta [negb].
  rewrite run_try_bind, run_walk. cbv beta iota.
  rewrite run_try_bind, run_scan_loop. cbv beta iota. rewrite Hs.
  destruct (scan_walk self (String c r) (walk_ os w (MOVIES_DIR HOME_DIR)) []);
    [contradiction |].
  rewrite posix_launcher. now rewrite run_try_effect, run_posix_open.
Qed.

Lemma play_movie_plays_scored_video_witness :
  exists root dirs files file,
    In (root, dirs, files) (walk_ Toy.os Toy.w0 (MOVIES_DIR Toy.home)) /\ In file files
    /\ is_video (file_ops Toy.home) file = true
    /\ 0 < match_score "inception" file
    /\ let best := posixpath.join root file in
       let argv :=
         [if exists_ Toy.os Toy.w0 "/usr/bin/open" then "open" else "xdg-open"; best] in
       run Toy.os (play_movie Toy.home (file_ops Toy.home) "inception") Toy.w0
       = (match fst (popen_ Toy.os Toy.w0 argv) with
          | Ok _ => Ok ("Playing movie: " ++ posixpath.basename best)
          | Raised e => Ok ("Error playing movie: " ++ e)
          end, snd (popen_ Toy.os Toy.w0 argv)).
Proof.
  apply (play_movie_plays_scored_video Toy.home (file_ops Toy.home) Toy.os Toy.w0
           "inception").
  - discriminate.
  - reflexivity.
  - vm_compute. discriminate.
Defined.

(** ** Substrings and words *)

Lemma string_app_assoc (a b c : string) : (a ++ b) ++ c = a ++ b ++ c.
Proof. induction a as [| x a IH]; simpl; [reflexivity | now rewrite IH]. Qed.

Lemma string_app_nil_r (a : string) : a ++ "" = a.
Proof. induction a as [| x a IH]; simpl; [reflexivity | now rewrite IH]. Qed.

Lemma startswith_nil (s : string) : Str.startswith s "" = true.
Proof. now destruct s. Qed.

Lemma startswith_iff (s p : string) :
  Str.startswith s p = true <-> exists t, s = p ++ t.
Proof.
  revert s. induction p as [| b p IH]; intros s.
  - rewrite startswith_nil. split; [intros _; now exists s | reflexivity].
  - destruct s as [| a s]; simpl.
    + split; [discriminate | intros [t Ht]; discriminate].
    + rewrite andb_true_iff, IH, Ascii.eqb_eq. split.
      * intros [-> [t ->]]. now exists t.
      * intros [t Ht]. injection Ht as -> ->. split; [reflexivity | now exists t].
Qed.

Lemma contains_iff (needle hay : string) :
  Str.contains needle hay = true <-> exists pre post, hay = pre ++ needle ++ post.
Proof.
  induction hay as [| c r IH]; cbn [Str.contains]; rewrite orb_true_iff, startswith_iff.
  - split.
    + intros [[t Ht] | Hf]; [now exists "", t | discriminate].
    + intros [pre [post H]]. left. destruct pre; [now exists post | discriminate].
  - rewrite IH. split.
    + intros [[t Ht] | [pre [post Hr]]].
      * now exists "", t.
      * exists (String c pre), post. simpl. now rewrite Hr.
    + intros [pre [post H]]. destruct pre as [| x pre]; simpl in H.
      * left. now exists post.
      * right. injection H as _ Hr. now exists pre, post.
Qed.

Lemma contains_trans (a b c : string) :
  Str.contains a b = true -> Str.contains b c = true -> Str.contains a c = true.
Proof.
  rewrite !contains_iff. intros [p1 [q1 ->]] [p2 [q2 ->]].
  exists (p2 ++ p1), (q1 ++ q2). now rewrite !string_app_assoc.
Qed.

Lemma rev_string_app (acc s : string) :
  Str.rev_string acc s = Str.rev_string "" s ++ acc.
Proof.
  revert acc. induction s as [| c s IH]; intros acc; simpl; [reflexivity |].
  rewrite (IH (String c acc)), (IH (String c "")). now rewrite string_app_assoc.
Qed.

Lemma split_from_word (cur s word : string) :
  In word (Str.split_from cur s) ->
  exists pre post, Str.rev_string "" cur ++ s = pre ++ word ++ post.
Proof.
  assert (Hflush : forall cur, In word (Str.flush cur) -> word = Str.rev_string "" cur).
  { intros [| c r]; simpl; [contradiction | now intros [<- | []]]. }
  revert cur. induction s as [| c s IH]; intros cur; simpl.
  - intros H. apply Hflush in H as ->. exists "", "". simpl. now rewrite string_app_nil_r.
  - destruct (Str.isspace c).
    + intros H. apply in_app_or in H as [H | H].
      * apply Hflush in H as ->. now exists "", (String c s).
      * apply IH in H as [pre [post Hs]]. simpl in Hs.
        exists (Str.rev_string "" cur ++ String c pre), post.
        rewrite string_app_assoc. simpl. now rewrite Hs.
    + intros H. apply IH in H as [pre [post Hs]]. exists pre, post.
      rewrite <- Hs. simpl. rewrite (rev_string_app (String c "") cur).
      now rewrite string_app_assoc.
Qed.

Lemma split_word_contained (s word : string) :
  In word (Str.split s) -> Str.contains word s = true.
Proof.
  intros H. apply split_from_word in H as [pre [post Hs]]. simpl in Hs.
  apply contains_iff. now exists pre, post.
Qed.

Lemma filter_all {A : Type} (f : A -> bool) (l : list A) :
  (forall x, In x l -> f x = true) -> filter f l = l.
Proof.
  induction l as [| x l IH]; intros H; simpl; [reflexivity |].
  rewrite (H x (or_introl eq_refl)), IH; [reflexivity |].
  intros y Hy. apply H. now right.
Qed.

Lemma filter_length_bound {A : Type} (f : A -> bool) (l : list A) :
  length (filter f l) <= length l.
Proof.
  induction l as [| x l IH]; simpl; [lia |]. destruct (f x); simpl; lia.
Qed.

(** X12.  A file name that contains the whole query also contains each of
    its words, so it scores 50 plus 10 for every word occurrence of the
    query; a name that does not contain the whole query scores at most the
    word part.  A file containing the whole query therefore always ranks
    strictly above one that does not. *)
Theorem whole_query_outranks (query f1 f2 : string) :
  Str.contains (Str.lower query) (Str.lower f1) = true ->
  Str.contains (Str.lower query) (Str.lower f2) = false ->
  match_score query f1 = 50 + 10 * length (Str.split (Str.lower query))
  /\ match_score query f2 <= 10 * length (Str.split (Str.lower query))
  /\ match_score query f2 < match_score query f1.
Proof.
  intros H1 H2.
  assert (E1 : match_score query f1 = 50 + 10 * length (Str.split (Str.lower query))).
  { rewrite match_score_spec. unfold spec_score. rewrite H1.
    rewrite filter_all; [reflexivity |].
    intros word Hw. eapply contains_trans; [| exact H1].
    now apply split_word_contained. }
  assert (E2 : match_score query f2 <= 10 * length (Str.split (Str.lower query))).
  { rewrite match_score_spec. unfold spec_score. rewrite H2.
    pose proof (filter_length_bound (fun word => Str.contains word (Str.lower f2))
                  (Str.split (Str.lower query))).
    simpl. lia. }
  repeat split; [exact E1 | exact E2 | lia].
Qed.

Lemma whole_query_outranks_witness :
  match_score "the big sleep" "The Big Sleep (1946).mkv" = 50 + 10 * 3
  /\ match_score "the big sleep" "The.Big.Sleep.1946.mkv" <= 10 * 3
  /\ match_score "the big sleep" "The.Big.Sleep.1946.mkv"
     < match_score "the big sleep" "The Big Sleep (1946).mkv".
Proof.
  apply (whole_query_outranks "the big sleep" "The Big Sleep (1946).mkv"
           "The.Big.Sleep.1946.mkv"); reflexivity.
Defined.

(** ** [execute_operation] on every input *)

(** X13.  Whatever the operation, the text-valued parameters and the answers
    of the system, [execute_operation] returns a message: no exception raised
    by a system call escapes a handler. *)
Theorem execute_operation_returns (HOME_DIR : string) (operation : option string)
    (parameters : params) (os : OS) (w : World os) :
  text_params parameters ->
  exists message w',
    run os (execute_operation HOME_DIR operation parameters) w = (Ok message, w').
Proof.
  intros Htext. now apply no_throw_run, execute_operation_no_throw.
Qed.

Lemma execute_operation_returns_witness :
  exists message w',
    run Faulty.os
      (execute_operation Toy.home (Some "move_all_files")
         (Params (map (fun kv => (fst kv, Text (snd kv)))
                    [("source_dir", "s"); ("destination_dir", "d")])))
      Faulty.w1
    = (Ok message, w').
Proof.
  apply execute_operation_returns. apply text_params_intro.
Defined.

(** X14.  A search or a play request whose term is missing from the
    parameters is treated as one with an empty term: the immediate failure
    message, and no call into the system. *)
Theorem execute_operation_missing_term (HOME_DIR : string)
    (parameters : list (string * value)) :
  (plan_lookup parameters "search_term" = None ->
     execute_operation HOME_DIR (Some "search_files") (Params parameters)
     = Ret "No search term specified.")
  /\ (plan_lookup parameters "movie_name" = None ->
      execute_operation HOME_DIR (Some "play_movie") (Params parameters)
      = Ret "No movie name specified.").
Proof.
  split; intros Hmissing.
  - change (execute_operation HOME_DIR (Some "search_files") (Params parameters))
      with (search_files_any HOME_DIR (file_ops HOME_DIR)
              (match plan_lookup parameters "search_term" with
               | Some v => v
               | None => Text ""
               end)
              (match plan_lookup parameters "search_path" with
               | Some v => v
               | None => Text ""
               end)).
    now rewrite Hmissing.
  - change (execute_operation HOME_DIR (Some "play_movie") (Params parameters))
      with (play_movie_any HOME_DIR (file_ops HOME_DIR)
              (match plan_lookup parameters "movie_name" with
               | Some v => v
               | None => Text ""
               end)).
    now rewrite Hmissing.
Qed.

Lemma execute_operation_missing_term_witness :
  execute_operation Toy.home (Some "search_files")
    (Params [("search_path", Text "movies")])
  = Ret "No search term specified."
  /\ execute_operation Toy.home (Some "play_movie") (Params [])
     = Ret "No movie name specified.".
Proof.
  destruct (execute_operation_missing_term Toy.home [("search_path", Text "movies")])
    as [H1 _].
  destruct (execute_operation_missing_term Toy.home []) as [_ H2].
  split; [exact (H1 eq_refl) | exact (H2 eq_refl)].
Defined.

(** ** [resolve_path]: aliases and white space *)

Lemma lower_char_slash (c : ascii) :
  Ascii.eqb c "/" = true -> Str.lower_char c = "/"%char.
Proof. intros H. apply Ascii.eqb_eq in H. now subst c. Qed.

Lemma absolute_is_no_alias (HOME_DIR path : string) :
  posixpath.isabs path = true ->
  dict_lookup (COMMON_LOCATIONS HOME_DIR) (Str.lower path) = None.
Proof.
  unfold posixpath.isabs. destruct path as [| c r]; [discriminate |].
  simpl. intros H. apply andb_true_iff in H as [H _].
  rewrite (lower_char_slash c H). reflexivity.
Qed.

(** X15.  A token that is an alias once stripped and lower-cased resolves to
    the alias target, whatever its case and the white space around it, and
    without any call into the system; no such token is taken for an absolute
    path first. *)
Theorem resolve_path_alias (HOME_DIR : string) (self : FileOperations)
    (path location : string) :
  path <> "" ->
  dict_lookup (COMMON_LOCATIONS HOME_DIR) (Str.lower (Str.strip path)) = Some location ->
  resolve_path HOME_DIR self path = Ret location.
Proof.
  intros Hne Halias. unfold resolve_path.
  destruct path as [| c r]; [contradiction |].
  cbv beta iota delta [Str.is_empty].
  destruct (posixpath.isabs (Str.strip (String c r))) eqn:Habs.
  - rewrite (absolute_is_no_alias HOME_DIR _ Habs) in Halias. discriminate.
  - now rewrite Halias.
Qed.

Lemma resolve_path_alias_witness :
  resolve_path Toy.home (file_ops Toy.home) "  My Documents " = Ret "/home/u/Documents"
  /\ resolve_path Toy.home (file_ops Toy.home) "PICS" = Ret "/home/u/Pictures".
Proof.
  split; apply resolve_path_alias; try discriminate; reflexivity.
Defined.

Lemma resolve_path_absolute_unless_drive_witness :
  posixpath.isabs "/home/u/s/notes.txt" = true
  \/ (exists g, drive_match (Str.strip "docs/../s/notes.txt") = Some g
                /\ "/home/u/s/notes.txt" = drive_root (Str.upper_char (Str.lower_char g)))
  \/ ("/home/u/s/notes.txt" = Str.strip "docs/../s/notes.txt"
      /\ char_is (char_at "/home/u/s/notes.txt" 1) (Ascii.eqb ":") = true).
Proof.
  apply (resolve_path_absolute_unless_drive Toy.home (file_ops Toy.home)
           "docs/../s/notes.txt" Toy.os Toy.w0); reflexivity.
Defined.

Lemma rstrip_idempotent (s : string) : Str.rstrip (Str.rstrip s) = Str.rstrip s.
Proof.
  induction s as [| c r IH]; [reflexivity |].
  cbn [Str.rstrip]. destruct (Str.rstrip r) as [| d r'] eqn:Hr.
  - destruct (Str.isspace c) eqn:Hc; [reflexivity |].
    cbn [Str.rstrip]. now rewrite Hc.
  - cbn [Str.rstrip]. cbn [Str.rstrip] in IH. now rewrite IH.
Qed.

Lemma lstrip_head (s : string) :
  Str.lstrip s = "" \/ exists c r, Str.lstrip s = String c r /\ Str.isspace c = false.
Proof.
  induction s as [| c r IH]; [now left |].
  simpl. destruct (Str.isspace c) eqn:Hc; [exact IH |].
  right. now exists c, r.
Qed.

Lemma lstrip_fixed (c : ascii) (r : string) :
  Str.isspace c = false -> Str.lstrip (String c r) = String c r.
Proof. intros H. simpl. now rewrite H. Qed.

Lemma rstrip_head (c : ascii) (r : string) :
  Str.isspace c = false -> exists r', Str.rstrip (String c r) = String c r'.
Proof.
  intros H. cbn [Str.rstrip]. destruct (Str.rstrip r) as [| d r'].
  - rewrite H. now exists "".
  - now exists (String d r').
Qed.

Lemma strip_idempotent (s : string) : Str.strip (Str.strip s) = Str.strip s.
Proof.
  unfold Str.strip.
  destruct (lstrip_head s) as [-> | [c [r [-> Hc]]]]; [reflexivity |].
  destruct (rstrip_head c r Hc) as [r' Hr].
  rewrite Hr, (lstrip_fixed c r' Hc), <- Hr. apply rstrip_idempotent.
Qed.

(** X16.  White space around a token does not count: a token and its
    stripped form resolve alike.  A token made of white space only is not
    the empty token: it resolves, without any call, to the current path
    joined with nothing and normalised. *)
Theorem resolve_path_ignores_white_space (HOME_DIR : string) (self : FileOperations)
    (path : string) :
  (Str.strip path <> "" ->
     resolve_path HOME_DIR self (Str.strip path) = resolve_path HOME_DIR self path)
  /\ (path <> "" -> Str.strip path = "" ->
      resolve_path HOME_DIR self path
      = Ret (posixpath.normpath (posixpath.join (current_path self) ""))).
Proof.
  split.
  - intros Hne. unfold resolve_path. rewrite strip_idempotent.
    destruct (Str.strip path) as [| c r] eqn:Hs; [contradiction |].
    destruct path as [| x p]; [discriminate |]. reflexivity.
  - intros Hne Hs. unfold resolve_path. rewrite Hs.
    destruct path as [| x p]; [contradiction |]. reflexivity.
Qed.

Lemma resolve_path_ignores_white_space_witness :
  resolve_path Toy.home (file_ops Toy.home) (Str.strip "  s/a.txt ")
  = resolve_path Toy.home (file_ops Toy.home) "  s/a.txt "
  /\ resolve_path Toy.home (file_ops "/home/u/") "   " = Ret "/home/u".
Proof.
  destruct (resolve_path_ignores_white_space Toy.home (file_ops Toy.home) "  s/a.txt ")
    as [H1 _].
  destruct (resolve_path_ignores_white_space Toy.home (file_ops "/home/u/") "   ")
    as [_ H2].
  split; [apply H1; discriminate |].
  rewrite H2; [reflexivity | discriminate | reflexivity].
Defined.

(** X17.  [create_folder] and [create_file] strip the name they are given:
    a name and the same name with white space around it give the same
    program, hence the same calls and the same message. *)
Theorem create_strips_name (HOME_DIR : string) (self : FileOperations)
    (name location content : string) :
  create_folder HOME_DIR self (Str.strip name) location
  = create_folder HOME_DIR self name location
  /\ create_file HOME_DIR self (Str.strip name) location content
     = create_file HOME_DIR self name location content.
Proof.
  unfold create_folder, create_file. now rewrite strip_idempotent.
Qed.

(** ** [_clean_json_response] *)

Lemma no_backquote_app (a b : string) :
  no_backquote (a ++ b) = no_backquote a && no_backquote b.
Proof.
  induction a as [| c a IH]; simpl; [reflexivity |].
  now rewrite IH, andb_assoc.
Qed.

Lemma all_space_no_backquote (s : string) : all_space s = true -> no_backquote s = true.
Proof.
  induction s as [| c s IH]; simpl; [reflexivity |].
  intros H. apply andb_true_iff in H as [Hc Hs]. rewrite (IH Hs), andb_true_r.
  destruct (Ascii.eqb c "096") eqn:E; [| reflexivity].
  apply Ascii.eqb_eq in E. subst c. discriminate.
Qed.

Lemma startswith_fence (x : string) : Str.startswith (fence ++ x) fence = true.
Proof. apply startswith_iff. now exists x. Qed.

Lemma no_fence_at_head (c : ascii) (s : string) :
  Ascii.eqb c "096" = false -> Str.startswith (String c s) fence = false.
Proof. intros H. simpl. now rewrite H. Qed.

Lemma after_first_fence (pre x : string) :
  no_backquote pre = true -> after_first fence (pre ++ fence ++ x) = Some x.
Proof.
  induction pre as [| c pre IH]; intros H.
  - change ("" ++ fence ++ x) with (fence ++ x).
    destruct (fence ++ x) eqn:E; [discriminate |].
    cbn [after_first]. rewrite <- E, startswith_fence. reflexivity.
  - simpl in H. apply andb_true_iff in H as [Hc Hp]. apply negb_true_iff in Hc.
    change (String c pre ++ fence ++ x) with (String c (pre ++ fence ++ x)).
    cbn [after_first]. rewrite (no_fence_at_head c _ Hc). now apply IH.
Qed.

Lemma before_first_fence (body x : string) :
  no_backquote body = true -> before_first fence (body ++ fence ++ x) = Some body.
Proof.
  induction body as [| c body IH]; intros H.
  - change ("" ++ fence ++ x) with (fence ++ x).
    destruct (fence ++ x) eqn:E; [discriminate |].
    cbn [before_first]. now rewrite <- E, startswith_fence.
  - simpl in H. apply andb_true_iff in H as [Hc Hp]. apply negb_true_iff in Hc.
    change (String c body ++ fence ++ x) with (String c (body ++ fence ++ x)).
    cbn [before_first]. rewrite (no_fence_at_head c _ Hc), (IH Hp). reflexivity.
Qed.

Lemma before_first_none (s : string) :
  no_backquote s = true -> before_first fence s = None.
Proof.
  induction s as [| c s IH]; intros H; [reflexivity |].
  simpl in H. apply andb_true_iff in H as [Hc Hs]. apply negb_true_iff in Hc.
  cbn [before_first]. now rewrite (no_fence_at_head c _ Hc), (IH Hs).
Qed.

Lemma no_backquote_drop (n : nat) (s : string) :
  no_backquote s = true -> no_backquote (drop n s) = true.
Proof.
  revert s. induction n as [| n IH]; intros s H; [now destruct s |].
  destruct s as [| c s]; [reflexivity |]. simpl in *.
  apply andb_true_iff in H as [_ H]. now apply IH.
Qed.

Lemma no_backquote_lstrip (s : string) :
  no_backquote s = true -> no_backquote (Str.lstrip s) = true.
Proof.
  induction s as [| c s IH]; intros H; [reflexivity |].
  simpl. destruct (Str.isspace c); [| exact H].
  simpl in H. apply andb_true_iff in H as [_ H]. now apply IH.
Qed.

Lemma lstrip_app_space (ws x : string) :
  all_space ws = true -> Str.lstrip (ws ++ x) = Str.lstrip x.
Proof.
  induction ws as [| c ws IH]; intros H; [reflexivity |].
  simpl in *. apply andb_true_iff in H as [Hc Hs]. rewrite Hc. now apply IH.
Qed.

Lemma rstrip_space (ws : string) : all_space ws = true -> Str.rstrip ws = "".
Proof.
  induction ws as [| c ws IH]; intros H; [reflexivity |].
  simpl in H. apply andb_true_iff in H as [Hc Hs].
  cbn [Str.rstrip]. now rewrite (IH Hs), Hc.
Qed.

Lemma rstrip_app_space (a ws : string) :
  all_space ws = true -> Str.rstrip (a ++ ws) = Str.rstrip a.
Proof.
  intros H. induction a as [| c a IH].
  - simpl. now apply rstrip_space.
  - change (String c a ++ ws) with (String c (a ++ ws)).
    cbn [Str.rstrip]. now rewrite IH.
Qed.

Lemma lstrip_fence (x : string) : Str.lstrip (fence ++ x) = fence ++ x.
Proof. reflexivity. Qed.

Lemma not_json_head (s : string) :
  Str.startswith s "j" = false -> Str.startswith s "json" = false.
Proof.
  destruct s as [| c s]; [reflexivity |]. simpl.
  destruct (Ascii.eqb c "j"); [| reflexivity].
  rewrite startswith_nil. discriminate.
Qed.

(** The text between the fences, once the optional word is gone. *)
Lemma fenced_inner (ws1 body ws2 post : string) :
  all_space ws1 = true -> all_space ws2 = true ->
  no_backquote body = true ->
  Str.lstrip body = body -> Str.rstrip body = body ->
  option_map (fun inner => Str.strip (Str.rstrip inner))
    (before_first fence (Str.lstrip (ws1 ++ body ++ ws2 ++ fence ++ post)))
  = Some body.
Proof.
  intros H1 H2 Hb Hl Hr. rewrite (lstrip_app_space ws1 _ H1).
  destruct body as [| c r].
  - change ("" ++ ws2 ++ fence ++ post) with (ws2 ++ fence ++ post).
    rewrite (lstrip_app_space ws2 _ H2), lstrip_fence.
    now rewrite (before_first_fence "" post eq_refl
                 : before_first fence (fence ++ post) = Some "").
  - assert (Hc : Str.isspace c = false).
    { destruct (Str.isspace c) eqn:E; [| reflexivity].
      exfalso. destruct (lstrip_head (String c r)) as [H0 | [d [r0 [Hd Hs]]]].
      - rewrite Hl in H0. discriminate.
      - rewrite Hl in Hd. injection Hd as -> ->. congruence. }
    change (String c r ++ ws2 ++ fence ++ post)
      with (String c (r ++ ws2 ++ fence ++ post)).
    rewrite (lstrip_fixed c _ Hc).
    change (String c (r ++ ws2 ++ fence ++ post))
      with (String c r ++ ws2 ++ fence ++ post).
    rewrite <- string_app_assoc.
    rewrite before_first_fence
      by (rewrite no_backquote_app, Hb; now rewrite (all_space_no_backquote ws2 H2)).
    cbn [option_map]. rewrite (rstrip_app_space _ ws2 H2), Hr.
    unfold Str.strip. now rewrite Hl, Hr.
Qed.

Lemma contains_fence (pre x : string) : Str.contains fence (pre ++ fence ++ x) = true.
Proof. apply contains_iff. now exists pre, x. Qed.

(** X18.  A response that wraps a text in a pair of fences, with or without
    the word [json] after the opening one and with any white space inside
    the fences, is cleaned to the text itself; what precedes the opening
    fence and what follows the closing one is dropped.  The text is taken
    without backquotes and already stripped, and, when there is no [json]
    word, not beginning with the letter j. *)
Theorem clean_json_response_unwraps (pre ws1 body ws2 post : string) :
  no_backquote pre = true ->
  all_space ws1 = true -> all_space ws2 = true ->
  no_backquote body = true ->
  Str.lstrip body = body -> Str.rstrip body = body ->
  _clean_json_response (pre ++ fence ++ "json" ++ ws1 ++ body ++ ws2 ++ fence ++ post)
  = body
  /\ (Str.startswith body "j" = false ->
      _clean_json_response (pre ++ fence ++ ws1 ++ body ++ ws2 ++ fence ++ post) = body).
Proof.
  intros Hpre H1 H2 Hb Hl Hr.
  pose proof (fenced_inner ws1 body ws2 post H1 H2 Hb Hl Hr) as Hinner.
  split.
  - unfold _clean_json_response, fenced_group.
    rewrite contains_fence, (after_first_fence pre _ Hpre).
    change (Str.startswith ("json" ++ ws1 ++ body ++ ws2 ++ fence ++ post) "json")
      with (Str.startswith (ws1 ++ body ++ ws2 ++ fence ++ post) "").
    rewrite startswith_nil.
    change (drop 4 ("json" ++ ws1 ++ body ++ ws2 ++ fence ++ post))
      with (ws1 ++ body ++ ws2 ++ fence ++ post).
    destruct (before_first fence _); [now injection Hinner | discriminate].
  - intros Hj. unfold _clean_json_response, fenced_group.
    rewrite contains_fence, (after_first_fence pre _ Hpre).
    assert (Hhead : Str.startswith (ws1 ++ body ++ ws2 ++ fence ++ post) "json" = false).
    { apply not_json_head. destruct ws1 as [| c ws1].
      - destruct body as [| c body].
        + destruct ws2 as [| c ws2]; [reflexivity |].
          simpl in H2. apply andb_true_iff in H2 as [Hc _]. simpl.
          destruct (Ascii.eqb c "j") eqn:E; [| reflexivity].
          apply Ascii.eqb_eq in E. subst c. discriminate.
        + simpl in *. destruct (Ascii.eqb c "j"); [| reflexivity].
          now rewrite startswith_nil in Hj.
      - simpl in H1. apply andb_true_iff in H1 as [Hc _]. simpl.
        destruct (Ascii.eqb c "j") eqn:E; [| reflexivity].
        apply Ascii.eqb_eq in E. subst c. discriminate. }
    rewrite Hhead.
    destruct (before_first fence _); [now injection Hinner | discriminate].
Qed.

Lemma clean_json_response_unwraps_witness :
  _clean_json_response
    ("Here is the plan: " ++ fence ++ "json" ++ "  " ++ "{'operation': 'unknown'}"
     ++ " " ++ fence ++ " Done.")
  = "{'operation': 'unknown'}"
  /\ _clean_json_response
       ("" ++ fence ++ " " ++ "{'operation': 'unknown'}" ++ "" ++ fence ++ "")
     = "{'operation': 'unknown'}".
Proof.
  destruct (clean_json_response_unwraps "Here is the plan: " "  "
              "{'operation': 'unknown'}" " " " Done."
              eq_refl eq_refl eq_refl eq_refl eq_refl eq_refl) as [H1 _].
  destruct (clean_json_response_unwraps "" " " "{'operation': 'unknown'}" "" ""
              eq_refl eq_refl eq_refl eq_refl eq_refl eq_refl) as [_ H2].
  split; [exact H1 | exact (H2 eq_refl)].
Defined.

(** X19.  A response with no fence, or with a single fence that is never
    closed, is returned as it is: nothing is cut from it. *)
Theorem clean_json_response_unclosed (pre post : string) :
  no_backquote pre = true -> no_backquote post = true ->
  _clean_json_response pre = pre
  /\ _clean_json_response (pre ++ fence ++ post) = pre ++ fence ++ post.
Proof.
  intros Hpre Hpost. split.
  - unfold _clean_json_response, fenced_group.
    destruct (Str.contains fence pre); [| reflexivity].
    assert (Hnone : after_first fence pre = None).
    { clear Hpost. induction pre as [| c pre IH]; [reflexivity |].
      simpl in Hpre. apply andb_true_iff in Hpre as [Hc Hp]. apply negb_true_iff in Hc.
      cbn [after_first]. rewrite (no_fence_at_head c _ Hc). now apply IH. }
    now rewrite Hnone.
  - unfold _clean_json_response, fenced_group.
    rewrite contains_fence, (after_first_fence pre _ Hpre).
    rewrite before_first_none; [reflexivity |].
    apply no_backquote_lstrip.
    destruct (Str.startswith post "json"); [now apply no_backquote_drop | exact Hpost].
Qed.

Lemma clean_json_response_unclosed_witness :
  _clean_json_response "{'operation': 'unknown'}" = "{'operation': 'unknown'}"
  /\ _clean_json_response ("Sure: " ++ fence ++ "json {'operation': 'unk")
     = "Sure: " ++ fence ++ "json {'operation': 'unk".
Proof.
  destruct (clean_json_response_unclosed "{'operation': 'unknown'}" "" eq_refl eq_refl)
    as [H1 _].
  destruct (clean_json_response_unclosed "Sure: " "json {'operation': 'unk"
              eq_refl eq_refl) as [_ H2].
  split; [exact H1 | exact H2].
Defined.
